(** * Sweet Shop Management: session, HTTP client, purchase flow, toasts

    A shallow embedding of the front-end's logic:
    - [services/api.js]      (class [ApiService]),
    - [contexts/AuthContext] (the [AuthProvider] component),
    - [components/SweetCard] (the [handlePurchase] handler),
    - [components/Toast]     (the toast bus and the [Toast] component).

    JavaScript values that cross the network or the storage are JSON
    values; strings are byte strings (the UTF-8 text of the JavaScript
    string); numbers are rationals (every finite double is one).  The
    browser state the code touches (localStorage, window.location, the
    clock, pending timers, the network) is one record, [World], threaded
    through a state-and-exception monad.  An async function runs to
    completion in one step: each [await] of a [fetch] settles at once, the
    way the network of the world says. *)

From Stdlib Require Import QArith Qround Qabs Ascii.
From stdpp Require Import gmap strings list pretty.

Set Warnings "-register-all".

Local Open Scope Z_scope.

(** ** JavaScript values *)

Inductive Json : Type :=
  | JNull
  | JBool (b : bool)
  | JNum (q : Q)
  | JStr (s : string)
  | JArr (items : list Json)
  | JObj (fields : list (string * Json)).

(** Errors the code throws or the engine raises. *)
Inductive ErrorName := Error | TypeError | SyntaxError.

Record Thrown := mkThrown { ename : ErrorName; emessage : string }.

(** Run-time faults raised by the engine itself; the text of their
    messages is the engine's business. *)
Inductive Fault :=
  | ReadOfNull (prop : string)        (* null.prop *)
  | ReadOfUndefined (prop : string)   (* undefined.prop *)
  | NotAFunction (prop : string)      (* v.prop(...) where v.prop is no function *)
  | BadJson (text : string)           (* JSON.parse(text) *)
  | BadBody.                          (* response.json() on a body that is not JSON *)

Definition fault_name (f : Fault) : ErrorName :=
  match f with
  | ReadOfNull _ | ReadOfUndefined _ | NotAFunction _ => TypeError
  | BadJson _ | BadBody => SyntaxError
  end.

(** What the host (engine and build environment) decides:
    [Number::toString], the messages of engine faults, the serialisation
    of [URLSearchParams], and [process.env.REACT_APP_API_URL]. *)
Class Host := {
  NumberToString : Q → string;
  fault_message : Fault → string;
  URLSearchParams_toString : list (string * string) → string;
  REACT_APP_API_URL : option string;
}.

(** A literal carries its exact value; the engine keeps the nearest
    binary64, which is zero exactly when the magnitude is at most
    2^-1075 (half the least subnormal, the tie going to even). *)
Definition is_zero_double (q : Q) : bool :=
  Qle_bool (Qabs q) (1 # (2 ^ 1075)).

(** [!!v] *)
Definition truthy (v : Json) : bool :=
  match v with
  | JNull => false
  | JBool b => b
  | JNum q => negb (is_zero_double q)
  | JStr s => negb (String.eqb s "")
  | JArr _ | JObj _ => true
  end.

(** [!!s] for the result of [localStorage.getItem] (null when absent). *)
Definition truthy_item (o : option string) : bool :=
  match o with
  | Some s => negb (String.eqb s "")
  | None => false
  end.

(** The last binding of a key wins, as in an object built by successive
    assignments. *)
Fixpoint assoc_last (k : string) (fields : list (string * Json)) : option Json :=
  match fields with
  | [] => None
  | (k', v) :: rest =>
      match assoc_last k rest with
      | Some v' => Some v'
      | None => if String.eqb k k' then Some v else None
      end
  end.

(** [v.k] for a value [v] other than null, and for the property names the
    sources read (detail, access_token, total_cost, username): none of
    them is defined on a primitive or on an array.  [None] is
    [undefined]. *)
Definition own_prop (v : Json) (k : string) : option Json :=
  match v with
  | JObj fields => assoc_last k fields
  | _ => None
  end.

Fixpoint join (sep : string) (l : list string) : string :=
  match l with
  | [] => ""
  | [s] => s
  | s :: rest => s +:+ sep +:+ join sep rest
  end.

Section WithHost.
Context `{Host}.

(** [String(v)], the conversion a template literal, [new Error(v)] and
    [localStorage.setItem] apply. *)
Fixpoint ToString (v : Json) : string :=
  match v with
  | JNull => "null"
  | JBool true => "true"
  | JBool false => "false"
  | JNum q => NumberToString q
  | JStr s => s
  | JArr items =>
      join "," (map (λ x, match x with JNull => "" | _ => ToString x end) items)
  | JObj _ => "[object Object]"
  end.

End WithHost.

(** ** JSON text *)

Definition dquote : ascii := ascii_of_N 34.
Definition backslash : ascii := ascii_of_N 92.

Definition hex_char (n : N) : ascii :=
  if (n <? 10)%N then ascii_of_N (48 + n) else ascii_of_N (87 + n).

(** [QuoteJSONString], one code unit at a time. *)
Definition quote_char (c : ascii) : string :=
  let n := N_of_ascii c in
  if (n =? 8)%N then String backslash "b"
  else if (n =? 9)%N then String backslash "t"
  else if (n =? 10)%N then String backslash "n"
  else if (n =? 12)%N then String backslash "f"
  else if (n =? 13)%N then String backslash "r"
  else if (n =? 34)%N then String backslash (String dquote EmptyString)
  else if (n =? 92)%N then String backslash (String backslash EmptyString)
  else if (n <? 32)%N then
    String backslash
      ("u00" +:+ String (hex_char (n / 16)) (String (hex_char (n mod 16)) EmptyString))
  else String c EmptyString.

Fixpoint quote_body (s : string) : string :=
  match s with
  | EmptyString => EmptyString
  | String c rest => quote_char c +:+ quote_body rest
  end.

Definition QuoteJSONString (s : string) : string :=
  String dquote (quote_body s +:+ String dquote EmptyString).

Section Stringify.
Context `{Host}.

(** [JSON.stringify(v)] without indentation; members in the order the
    object lists them. *)
Fixpoint JSON_stringify (v : Json) : string :=
  match v with
  | JNull => "null"
  | JBool true => "true"
  | JBool false => "false"
  | JNum q => NumberToString q
  | JStr s => QuoteJSONString s
  | JArr items => "[" +:+ join "," (map JSON_stringify items) +:+ "]"
  | JObj fields =>
      "{" +:+ join "," (map (λ kv, QuoteJSONString (fst kv) +:+ ":" +:+ JSON_stringify (snd kv)) fields)
          +:+ "}"
  end.

End Stringify.

(** *** [JSON.parse]

    A lexer that reads one character at a time and a parser that reads
    one token at a time with an explicit stack of open containers: both
    are folds over their input, so [JSON_parse] is total.  [None] is the
    SyntaxError. *)

Inductive Token :=
  | TLBrace | TRBrace | TLBracket | TRBracket | TColon | TComma
  | TStr (s : string)
  | TNum (q : Q)
  | TLit (v : Json).

Inductive NumPhase :=
  | NMinus | NZero | NInt | NDot | NFrac | NExp | NExpSign | NExpDigits.

Record NumAcc := mkNum {
  nneg : bool;      (* a leading minus *)
  mant : N;         (* the digits of the integer and fraction parts *)
  fdigits : N;      (* how many of them follow the point *)
  eneg : bool;      (* a minus in the exponent *)
  eexp : N;         (* the exponent's digits *)
}.

Inductive LexState :=
  | LDefault
  | LStr (acc : list ascii)                    (* inside a string; [acc] reversed *)
  | LEsc (acc : list ascii)                    (* after a backslash *)
  | LUni (acc : list ascii) (need : nat) (v : N) (* inside \uXXXX *)
  | LNum (ph : NumPhase) (a : NumAcc)
  | LLit (rest : list ascii) (v : Json).       (* inside null, true, false *)

Definition digit_val (c : ascii) : option N :=
  let n := N_of_ascii c in
  if ((48 <=? n) && (n <=? 57))%N then Some (n - 48)%N else None.

Definition hex_val (c : ascii) : option N :=
  let n := N_of_ascii c in
  if ((48 <=? n) && (n <=? 57))%N then Some (n - 48)%N
  else if ((97 <=? n) && (n <=? 102))%N then Some (n - 87)%N
  else if ((65 <=? n) && (n <=? 70))%N then Some (n - 55)%N
  else None.

Definition is_ws (c : ascii) : bool :=
  let n := N_of_ascii c in
  ((n =? 32) || (n =? 9) || (n =? 10) || (n =? 13))%N.

Definition num_terminal (ph : NumPhase) : bool :=
  match ph with
  | NZero | NInt | NFrac | NExpDigits => true
  | NMinus | NDot | NExp | NExpSign => false
  end.

(** The value of a number literal, exactly as written.  [JSON.parse]
    rounds it to the nearest double: the two agree on the literals that
    are doubles (integers below 2^53 in magnitude, 7.5, 0.25, ...) and
    differ by the rounding on the others (1.005, 1e400).  Of a parsed
    number this development reads only whether one was parsed and
    whether it is zero. *)
Definition num_value (a : NumAcc) : Q :=
  let m := if nneg a then - Z.of_N (mant a) else Z.of_N (mant a) in
  let e := (if eneg a then - Z.of_N (eexp a) else Z.of_N (eexp a)) - Z.of_N (fdigits a) in
  if 0 <=? e then inject_Z (m * 10 ^ e) else Qmake m (Z.to_pos (10 ^ (- e))).

(** The code unit of a \uXXXX escape, as the bytes of its UTF-8 text
    (pushed on a reversed accumulator).  Each escape is encoded on its
    own: two escapes that spell a surrogate pair give two groups of
    three bytes, where the text of the one character they denote has
    four.  Of a parsed string this development reads only whether it is
    empty, and the strings [QuoteJSONString] writes hold no such
    escapes. *)
Definition push_unit (v : N) (acc : list ascii) : list ascii :=
  if (v <? 128)%N then ascii_of_N v :: acc
  else if (v <? 2048)%N then
    ascii_of_N (128 + v mod 64) :: ascii_of_N (192 + v / 64) :: acc
  else
    ascii_of_N (128 + v mod 64) :: ascii_of_N (128 + (v / 64) mod 64)
      :: ascii_of_N (224 + v / 4096) :: acc.

Definition string_of_rev (acc : list ascii) : string :=
  String.string_of_list_ascii (rev acc).

Definition lex_default (c : ascii) : option (LexState * list Token) :=
  let n := N_of_ascii c in
  if is_ws c then Some (LDefault, [])
  else if (n =? 123)%N then Some (LDefault, [TLBrace])
  else if (n =? 125)%N then Some (LDefault, [TRBrace])
  else if (n =? 91)%N then Some (LDefault, [TLBracket])
  else if (n =? 93)%N then Some (LDefault, [TRBracket])
  else if (n =? 58)%N then Some (LDefault, [TColon])
  else if (n =? 44)%N then Some (LDefault, [TComma])
  else if (n =? 34)%N then Some (LStr [], [])
  else if (n =? 45)%N then Some (LNum NMinus (mkNum true 0 0 false 0), [])
  else if (n =? 48)%N then Some (LNum NZero (mkNum false 0 0 false 0), [])
  else if (n =? 110)%N then Some (LLit (String.list_ascii_of_string "ull") JNull, [])
  else if (n =? 116)%N then Some (LLit (String.list_ascii_of_string "rue") (JBool true), [])
  else if (n =? 102)%N then Some (LLit (String.list_ascii_of_string "alse") (JBool false), [])
  else match digit_val c with
       | Some d => Some (LNum NInt (mkNum false d 0 false 0), [])
       | None => None
       end.

Definition is_e (c : ascii) : bool :=
  let n := N_of_ascii c in ((n =? 101) || (n =? 69))%N.

Definition add_int (a : NumAcc) (d : N) : NumAcc :=
  mkNum (nneg a) (10 * mant a + d) (fdigits a) (eneg a) (eexp a).
Definition add_frac (a : NumAcc) (d : N) : NumAcc :=
  mkNum (nneg a) (10 * mant a + d) (fdigits a + 1) (eneg a) (eexp a).
Definition add_exp (a : NumAcc) (d : N) : NumAcc :=
  mkNum (nneg a) (mant a) (fdigits a) (eneg a) (10 * eexp a + d).
Definition neg_exp (a : NumAcc) : NumAcc :=
  mkNum (nneg a) (mant a) (fdigits a) true (eexp a).

(** One more character of a number, when it continues it. *)
Definition num_step (ph : NumPhase) (a : NumAcc) (c : ascii) : option (NumPhase * NumAcc) :=
  let n := N_of_ascii c in
  match ph, digit_val c with
  | NMinus, Some d => if (d =? 0)%N then Some (NZero, a) else Some (NInt, add_int a d)
  | NInt, Some d => Some (NInt, add_int a d)
  | (NDot | NFrac), Some d => Some (NFrac, add_frac a d)
  | (NExp | NExpSign | NExpDigits), Some d => Some (NExpDigits, add_exp a d)
  | (NZero | NInt), None =>
      if (n =? 46)%N then Some (NDot, a) else if is_e c then Some (NExp, a) else None
  | NFrac, None => if is_e c then Some (NExp, a) else None
  | NExp, None =>
      if (n =? 43)%N then Some (NExpSign, a)
      else if (n =? 45)%N then Some (NExpSign, neg_exp a) else None
  | _, _ => None
  end.

Definition lex_step (st : LexState) (c : ascii) : option (LexState * list Token) :=
  let n := N_of_ascii c in
  match st with
  | LDefault => lex_default c
  | LLit rest v =>
      match rest with
      | [e] => if Ascii.eqb c e then Some (LDefault, [TLit v]) else None
      | e :: rest' => if Ascii.eqb c e then Some (LLit rest' v, []) else None
      | [] => None
      end
  | LStr acc =>
      if (n =? 34)%N then Some (LDefault, [TStr (string_of_rev acc)])
      else if (n =? 92)%N then Some (LEsc acc, [])
      else if (n <? 32)%N then None
      else Some (LStr (c :: acc), [])
  | LEsc acc =>
      if ((n =? 34) || (n =? 92) || (n =? 47))%N then Some (LStr (c :: acc), [])
      else if (n =? 98)%N then Some (LStr (ascii_of_N 8 :: acc), [])
      else if (n =? 102)%N then Some (LStr (ascii_of_N 12 :: acc), [])
      else if (n =? 110)%N then Some (LStr (ascii_of_N 10 :: acc), [])
      else if (n =? 114)%N then Some (LStr (ascii_of_N 13 :: acc), [])
      else if (n =? 116)%N then Some (LStr (ascii_of_N 9 :: acc), [])
      else if (n =? 117)%N then Some (LUni acc 4 0%N, [])
      else None
  | LUni acc need v =>
      match hex_val c, need with
      | Some h, 1%nat => Some (LStr (push_unit (16 * v + h) acc), [])
      | Some h, S need' => Some (LUni acc need' (16 * v + h)%N, [])
      | _, _ => None
      end
  | LNum ph a =>
      match num_step ph a c with
      | Some (ph', a') => Some (LNum ph' a', [])
      | None =>
          if num_terminal ph then
            match lex_default c with
            | Some (st', toks) => Some (st', TNum (num_value a) :: toks)
            | None => None
            end
          else None
      end
  end.

Fixpoint lex (st : LexState) (s : string) : option (list Token) :=
  match s with
  | EmptyString =>
      match st with
      | LDefault => Some []
      | LNum ph a => if num_terminal ph then Some [TNum (num_value a)] else None
      | _ => None
      end
  | String c rest =>
      match lex_step st c with
      | Some (st', toks) =>
          match lex st' rest with
          | Some more => Some (toks ++ more)
          | None => None
          end
      | None => None
      end
  end.

(** An open container: an array with the items read so far, or an object
    with the members read so far and the key whose value is being read
    (both reversed). *)
Inductive Frame :=
  | FArr (items : list Json)
  | FObj (fields : list (string * Json)) (key : string).

Inductive ParseState :=
  | PValue (stack : list Frame)                       (* a value must follow *)
  | PArrStart (stack : list Frame)                    (* after [: a value or ] *)
  | PObjStart (stack : list Frame)                    (* after {: a key or } *)
  | PKey (stack : list Frame) (fields : list (string * Json))   (* after , in an object *)
  | PColon (stack : list Frame) (fields : list (string * Json)) (key : string)
  | PAfter (stack : list Frame) (v : Json).           (* a value is complete *)

Definition parse_value_token (stack : list Frame) (t : Token) : option ParseState :=
  match t with
  | TStr s => Some (PAfter stack (JStr s))
  | TNum q => Some (PAfter stack (JNum q))
  | TLit v => Some (PAfter stack v)
  | TLBracket => Some (PArrStart stack)
  | TLBrace => Some (PObjStart stack)
  | _ => None
  end.

Definition parse_step (st : ParseState) (t : Token) : option ParseState :=
  match st with
  | PValue stack => parse_value_token stack t
  | PArrStart stack =>
      match t with
      | TRBracket => Some (PAfter stack (JArr []))
      | _ => parse_value_token (FArr [] :: stack) t
      end
  | PObjStart stack =>
      match t with
      | TRBrace => Some (PAfter stack (JObj []))
      | TStr k => Some (PColon stack [] k)
      | _ => None
      end
  | PKey stack fields =>
      match t with
      | TStr k => Some (PColon stack fields k)
      | _ => None
      end
  | PColon stack fields k =>
      match t with
      | TColon => Some (PValue (FObj fields k :: stack))
      | _ => None
      end
  | PAfter stack v =>
      match stack, t with
      | FArr items :: stack', TComma => Some (PValue (FArr (v :: items) :: stack'))
      | FArr items :: stack', TRBracket => Some (PAfter stack' (JArr (rev (v :: items))))
      | FObj fields k :: stack', TComma => Some (PKey stack' ((k, v) :: fields))
      | FObj fields k :: stack', TRBrace => Some (PAfter stack' (JObj (rev ((k, v) :: fields))))
      | _, _ => None
      end
  end.

Fixpoint parse_tokens (st : ParseState) (ts : list Token) : option Json :=
  match ts with
  | [] => match st with PAfter [] v => Some v | _ => None end
  | t :: rest =>
      match parse_step st t with
      | Some st' => parse_tokens st' rest
      | None => None
      end
  end.

Definition JSON_parse (text : string) : option Json :=
  match lex LDefault text with
  | Some ts => parse_tokens (PValue []) ts
  | None => None
  end.

(** ** [Number.prototype.toFixed] *)

Fixpoint zeros (n : nat) : string :=
  match n with
  | O => EmptyString
  | S n' => String "0" (zeros n')
  end.

Fixpoint s_take (n : nat) (s : string) : string :=
  match n, s with
  | S n', String c rest => String c (s_take n' rest)
  | _, _ => EmptyString
  end.

Fixpoint s_drop (n : nat) (s : string) : string :=
  match n, s with
  | S n', String _ rest => s_drop n' rest
  | _, _ => s
  end.

Section ToFixed.
Context `{Host}.

(** [x.toFixed(f)] for a finite [x] and [0 <= f <= 100], after the
    language definition: the sign is split off; from 10^21 on the digits
    are those of [String(x)]; below, [n] is the integer nearest to
    [x * 10^f] (the larger one on a tie), written in decimal, padded with
    zeros to more than [f] digits, and the point is put before the last
    [f] digits. *)
Definition toFixed (f : nat) (x : Q) : string :=
  let neg := negb (Qle_bool 0 x) in
  let ax := if neg then Qopp x else x in
  let m :=
    if Qle_bool (inject_Z (10 ^ 21)) ax then NumberToString ax
    else
      let n := Z.to_N (Qfloor (ax * inject_Z (10 ^ Z.of_nat f) + (1 # 2))) in
      let m := pretty n in
      match f with
      | O => m
      | S _ =>
          let k := String.length m in
          let m := if (k <=? f)%nat then zeros (f + 1 - k) +:+ m else m in
          let k := String.length m in
          s_take (k - f) m +:+ "." +:+ s_drop (k - f) m
      end in
  (if neg then "-" else EmptyString) +:+ m.

End ToFixed.

(** ** The browser state *)

(** [type] of a toast: 'success', 'error' or 'info'. *)
Inductive ToastType := success | error | info.

Record Toast := mkToast {
  toast_id : N;
  toast_message : string;
  toast_type : ToastType;
  toast_timestamp : N;
}.

(** A pending [setTimeout] of a toast listener: at [due], the component
    instance [owner] drops the toasts whose id is [target]. *)
Record Timer := mkTimer { due : N; owner : nat; target : N }.

Inductive Body :=
  | NoBody
  | TextBody (text : string)
  | FormBody (fields : list (string * string)).

Record Request := mkRequest {
  url : string;
  method : string;
  headers : list (string * string);
  body : Body;
}.

(** What [fetch] settles to: a response, whose body [response.json()]
    parses ([None] when it is empty or not JSON), or a rejection. *)
Record Response := mkResponse { status : N; json_body : option Json }.

Inductive FetchOutcome :=
  | Responds (r : Response)
  | Rejects (e : Thrown).

Record World := mkWorld {
  localStorage : gmap string string;
  location_href : string;              (* last value assigned to window.location.href *)
  network : nat → FetchOutcome;        (* how the n-th fetch settles *)
  requests : list Request;             (* the fetch calls made, oldest first *)
  toastId : N;                         (* Toast.js: let toastId = 0 *)
  toastListeners : list nat;           (* Toast.js: the listeners, by component instance *)
  toasts : gmap nat (list Toast);      (* the [toasts] state of each mounted Toast *)
  timers : list Timer;
  now : N;                             (* Date.now(), in milliseconds *)
  instances : nat;                     (* Toast components mounted so far *)
  user : Json;                         (* AuthProvider: [user] state *)
  loading : bool;                      (* AuthProvider: [loading] state *)
  published : list Toast;              (* every toast handed to showToast, oldest first *)
  refreshes : nat;                     (* calls of a card's onUpdate *)
}.

Definition with_localStorage (f : gmap string string → gmap string string) (w : World) : World :=
  mkWorld (f (localStorage w)) (location_href w) (network w) (requests w) (toastId w)
    (toastListeners w) (toasts w) (timers w) (now w) (instances w) (user w) (loading w)
    (published w) (refreshes w).

Definition with_location (href : string) (w : World) : World :=
  mkWorld (localStorage w) href (network w) (requests w) (toastId w)
    (toastListeners w) (toasts w) (timers w) (now w) (instances w) (user w) (loading w)
    (published w) (refreshes w).

Definition with_requests (l : list Request) (w : World) : World :=
  mkWorld (localStorage w) (location_href w) (network w) l (toastId w)
    (toastListeners w) (toasts w) (timers w) (now w) (instances w) (user w) (loading w)
    (published w) (refreshes w).

Definition with_user (u : Json) (w : World) : World :=
  mkWorld (localStorage w) (location_href w) (network w) (requests w) (toastId w)
    (toastListeners w) (toasts w) (timers w) (now w) (instances w) u (loading w)
    (published w) (refreshes w).

Definition with_loading (b : bool) (w : World) : World :=
  mkWorld (localStorage w) (location_href w) (network w) (requests w) (toastId w)
    (toastListeners w) (toasts w) (timers w) (now w) (instances w) (user w) b
    (published w) (refreshes w).

Definition with_refreshes (n : nat) (w : World) : World :=
  mkWorld (localStorage w) (location_href w) (network w) (requests w) (toastId w)
    (toastListeners w) (toasts w) (timers w) (now w) (instances w) (user w) (loading w)
    (published w) n.

(** The toast bus and the Toast components: the fields Toast.js owns. *)
Definition with_bus (tid : N) (ls : list nat) (ts : gmap nat (list Toast))
    (tm : list Timer) (pub : list Toast) (w : World) : World :=
  mkWorld (localStorage w) (location_href w) (network w) (requests w) tid
    ls ts tm (now w) (instances w) (user w) (loading w) pub (refreshes w).

Definition with_now (t : N) (w : World) : World :=
  mkWorld (localStorage w) (location_href w) (network w) (requests w) (toastId w)
    (toastListeners w) (toasts w) (timers w) t (instances w) (user w) (loading w)
    (published w) (refreshes w).

Definition with_instances (n : nat) (w : World) : World :=
  mkWorld (localStorage w) (location_href w) (network w) (requests w) (toastId w)
    (toastListeners w) (toasts w) (timers w) (now w) n (user w) (loading w)
    (published w) (refreshes w).

(** ** Computations: state and exceptions *)

Inductive Outcome (A : Type) :=
  | Returned (a : A)
  | Threw (e : Thrown).
Arguments Returned {A} a.
Arguments Threw {A} e.

Definition M (A : Type) : Type := World → World * Outcome A.

Definition ret {A} (a : A) : M A := λ w, (w, Returned a).

Definition bind {A B} (m : M A) (k : A → M B) : M B :=
  λ w, match m w with
       | (w', Returned a) => k a w'
       | (w', Threw e) => (w', Threw e)
       end.

Definition throw {A} (e : Thrown) : M A := λ w, (w, Threw e).

(** [try { body } catch (error) { handler }] *)
Definition try_catch {A} (body : M A) (handler : Thrown → M A) : M A :=
  λ w, match body w with
       | (w', Returned a) => (w', Returned a)
       | (w', Threw e) => handler e w'
       end.

Definition modify (f : World → World) : M unit := λ w, (f w, Returned tt).
Definition gets {A} (f : World → A) : M A := λ w, (w, Returned (f w)).

(** The notations [x ← m; k] and [m ;; k] sequence computations. *)
#[global] Instance M_ret : MRet M := @ret.
#[global] Instance M_bind : MBind M := λ A B k m, bind m k.

Section WithHostFaults.
Context `{Host}.

Definition fault {A} (f : Fault) : M A :=
  throw (mkThrown (fault_name f) (fault_message f)).

(** [v.k], where [v] may be null. *)
Definition read_prop (v : Json) (k : string) : M (option Json) :=
  match v with
  | JNull => fault (ReadOfNull k)
  | _ => ret (own_prop v k)
  end.

(** [JSON.parse(text)] *)
Definition JSON_parse_or_throw (text : string) : M Json :=
  match JSON_parse text with
  | Some v => ret v
  | None => fault (BadJson text)
  end.

End WithHostFaults.

(** Web Storage *)
Definition getItem (k : string) : M (option string) := gets (λ w, localStorage w !! k).
Definition setItem (k v : string) : M unit := modify (with_localStorage <[k := v]>).
Definition removeItem (k : string) : M unit := modify (with_localStorage (delete k)).

(** ** components/Toast.js *)

Module ToastBus.

(** The listener a mounted Toast component [c] registers:
    [setToasts(prev => [...prev, toast])], then a timer of 4000 ms that
    drops the toast again.  Setting the state of an unmounted component
    does nothing. *)
Definition listener (c : nat) (toast : Toast) (w : World) : World :=
  with_bus (toastId w) (toastListeners w)
    (alter (λ prev, prev ++ [toast]) c (toasts w))
    (timers w ++ [mkTimer (now w + 4000) c (toast_id toast)])
    (published w) w.

Definition showToast (message : string) (type : ToastType) : M N :=
  λ w,
    let id := (toastId w + 1)%N in
    let toast := mkToast id message type (now w) in
    let w1 := with_bus id (toastListeners w) (toasts w) (timers w) (published w ++ [toast]) w in
    (foldl (λ w' c, listener c toast w') w1 (toastListeners w1), Returned id).

Definition showSuccess (message : string) : M N := showToast message success.
Definition showError (message : string) : M N := showToast message error.
Definition showInfo (message : string) : M N := showToast message info.

(** [prev.filter(t => t.id !== id)] *)
Definition without (id : N) (prev : list Toast) : list Toast :=
  filter (λ t, toast_id t ≠ id) prev.

(** [removeToast(id)] of the Toast component [c] (a click on the toast). *)
Definition removeToast (c : nat) (id : N) (w : World) : World :=
  with_bus (toastId w) (toastListeners w) (alter (without id) c (toasts w))
    (timers w) (published w) w.

(** A timer fires: its component drops the toast it was set for. *)
Definition fire (tm : Timer) (w : World) : World :=
  removeToast (owner tm) (target tm) w.

(** [toastListeners.splice(toastListeners.indexOf(listener), 1)] *)
Fixpoint remove_first (c : nat) (l : list nat) : list nat :=
  match l with
  | [] => []
  | x :: rest => if decide (x = c) then rest else x :: remove_first c rest
  end.

(** A Toast component mounts: its state is the empty list and its effect
    pushes a listener.  The result is the new instance. *)
Definition mount (w : World) : World * nat :=
  let c := instances w in
  (with_instances (S c)
     (with_bus (toastId w) (toastListeners w ++ [c]) (<[c := []]> (toasts w))
        (timers w) (published w) w), c).

(** It unmounts: the effect's cleanup removes the listener; the state is
    gone. *)
Definition unmount (c : nat) (w : World) : World :=
  with_bus (toastId w) (remove_first c (toastListeners w)) (delete c (toasts w))
    (timers w) (published w) w.

(** The clock advances by [dt] milliseconds and no timer runs. *)
Definition tick (dt : N) (w : World) : World := with_now (now w + dt)%N w.

(** The pending timer at position [i] runs, if it has come due, and is
    pending no more.  [setTimeout] promises that a callback does not run
    before its delay has passed, not that it runs at once. *)
Definition timeout (i : nat) (w : World) : World :=
  match timers w !! i with
  | Some tm =>
      if decide (due tm ≤ now w)%N then
        fire tm
          (with_bus (toastId w) (toastListeners w) (toasts w) (delete i (timers w))
             (published w) w)
      else w
  | None => w
  end.

(** An event loop that is on time: the clock advances by [dt]
    milliseconds and every timer that has come due runs at once, oldest
    first. *)
Definition elapse (dt : N) (w : World) : World :=
  let t := (now w + dt)%N in
  let due_now := filter (λ tm, (due tm ≤ t)%N) (timers w) in
  let pending := filter (λ tm, (t < due tm)%N) (timers w) in
  foldl (λ w' tm, fire tm w')
    (with_now t (with_bus (toastId w) (toastListeners w) (toasts w) pending (published w) w))
    due_now.

(** The toasts the component [c] shows. *)
Definition visible (c : nat) (w : World) : list Toast :=
  default [] (toasts w !! c).

End ToastBus.

(** ** services/api.js *)

Module ApiService.
Section WithHost.
Context `{Host}.

(** [process.env.REACT_APP_API_URL || 'http://localhost:8000'] *)
Definition API_BASE_URL : string :=
  match REACT_APP_API_URL with
  | Some s => if String.eqb s "" then "http://localhost:8000" else s
  | None => "http://localhost:8000"
  end.

Definition baseURL : string := API_BASE_URL.

Definition getAuthHeaders : M (list (string * string)) :=
  token ← getItem "access_token";
  mret (("Content-Type", "application/json") ::
        match token with
        | Some t => if truthy_item token then [("Authorization", "Bearer " +:+ t)] else []
        | None => []
        end).

Definition fetch (req : Request) : M Response :=
  λ w,
    let w' := with_requests (requests w ++ [req]) w in
    match network w (length (requests w)) with
    | Responds r => (w', Returned r)
    | Rejects e => (w', Threw e)
    end.

(** [response.ok] *)
Definition ok (response : Response) : bool :=
  ((200 <=? status response) && (status response <=? 299))%N.

(** [response.json()] *)
Definition json (response : Response) : M Json :=
  match json_body response with
  | Some v => mret v
  | None => fault BadBody
  end.

(** [new Error(v)] *)
Definition new_Error (v : Json) : Thrown := mkThrown Error (ToString v).

Definition handleResponse (response : Response) : M Json :=
  if (status response =? 401)%N then
    removeItem "access_token";;
    removeItem "user";;
    modify (with_location "/login");;
    throw (mkThrown Error "Session expired. Please login again.")
  else if negb (ok response) then
    errorData ← try_catch (json response) (λ _, mret (JObj []));
    detail ← read_prop errorData "detail";
    throw (new_Error
             (match detail with
              | Some d =>
                  if truthy d then d
                  else JStr ("HTTP error! status: " +:+ pretty (status response))
              | None => JStr ("HTTP error! status: " +:+ pretty (status response))
              end))
  else if (status response =? 204)%N then mret JNull
  else json response.

Definition register (userData : Json) : M Json :=
  response ← fetch (mkRequest (baseURL +:+ "/api/auth/register") "POST"
                      [("Content-Type", "application/json")]
                      (TextBody (JSON_stringify userData)));
  handleResponse response.

Definition login (username password : string) : M Json :=
  response ← fetch (mkRequest (baseURL +:+ "/api/auth/login") "POST" []
                      (FormBody [("username", username); ("password", password)]));
  handleResponse response.

Definition getCurrentUser : M Json :=
  hs ← getAuthHeaders;
  response ← fetch (mkRequest (baseURL +:+ "/api/auth/me") "GET" hs NoBody);
  handleResponse response.

Definition getSweets : M Json :=
  hs ← getAuthHeaders;
  response ← fetch (mkRequest (baseURL +:+ "/api/sweets") "GET" hs NoBody);
  handleResponse response.

(** Only the parameters that are neither null nor the empty string go
    into the query. *)
Definition query_of (params : list (string * Json)) : list (string * string) :=
  omap (λ kv, match snd kv with
              | JNull => None
              | JStr s => if String.eqb s "" then None else Some (fst kv, s)
              | v => Some (fst kv, ToString v)
              end) params.

Definition searchSweets (params : list (string * Json)) : M Json :=
  hs ← getAuthHeaders;
  response ← fetch (mkRequest (baseURL +:+ "/api/sweets/search?"
                                 +:+ URLSearchParams_toString (query_of params))
                      "GET" hs NoBody);
  handleResponse response.

Definition createSweet (sweetData : Json) : M Json :=
  hs ← getAuthHeaders;
  response ← fetch (mkRequest (baseURL +:+ "/api/sweets") "POST" hs
                      (TextBody (JSON_stringify sweetData)));
  handleResponse response.

Definition updateSweet (id : Q) (sweetData : Json) : M Json :=
  hs ← getAuthHeaders;
  response ← fetch (mkRequest (baseURL +:+ "/api/sweets/" +:+ NumberToString id) "PUT" hs
                      (TextBody (JSON_stringify sweetData)));
  handleResponse response.

Definition deleteSweet (id : Q) : M Json :=
  hs ← getAuthHeaders;
  response ← fetch (mkRequest (baseURL +:+ "/api/sweets/" +:+ NumberToString id) "DELETE" hs
                      NoBody);
  handleResponse response.

Definition purchaseSweet (id : Q) (purchaseData : Json) : M Json :=
  hs ← getAuthHeaders;
  response ← fetch (mkRequest (baseURL +:+ "/api/sweets/" +:+ NumberToString id +:+ "/purchase")
                      "POST" hs (TextBody (JSON_stringify purchaseData)));
  handleResponse response.

Definition restockSweet (id : Q) (restockData : Json) : M Json :=
  hs ← getAuthHeaders;
  response ← fetch (mkRequest (baseURL +:+ "/api/sweets/" +:+ NumberToString id +:+ "/restock")
                      "POST" hs (TextBody (JSON_stringify restockData)));
  handleResponse response.

Definition isAuthenticated : M bool :=
  token ← getItem "access_token";
  mret (truthy_item token).

(** The result is null ([JNull]) when nothing is stored. *)
Definition getStoredUser : M Json :=
  userStr ← getItem "user";
  match userStr with
  | Some s => if truthy_item userStr then JSON_parse_or_throw s else mret JNull
  | None => mret JNull
  end.

Definition storeAuthData (tokens user : Json) : M unit :=
  tok ← read_prop tokens "access_token";
  setItem "access_token" (match tok with Some v => ToString v | None => "undefined" end);;
  setItem "user" (JSON_stringify user).

Definition clearAuthData : M unit :=
  removeItem "access_token";;
  removeItem "user".

Definition getErrorMessage (e : Thrown) : string :=
  if negb (String.eqb (emessage e) "") then emessage e
  else "An unexpected error occurred. Please try again.".

(** The operations that talk to the server. *)
Inductive Operation :=
  | Register (userData : Json)
  | Login (username password : string)
  | GetCurrentUser
  | GetSweets
  | SearchSweets (params : list (string * Json))
  | CreateSweet (sweetData : Json)
  | UpdateSweet (id : Q) (sweetData : Json)
  | DeleteSweet (id : Q)
  | PurchaseSweet (id : Q) (purchaseData : Json)
  | RestockSweet (id : Q) (restockData : Json).

Definition perform (op : Operation) : M Json :=
  match op with
  | Register d => register d
  | Login u p => login u p
  | GetCurrentUser => getCurrentUser
  | GetSweets => getSweets
  | SearchSweets ps => searchSweets ps
  | CreateSweet d => createSweet d
  | UpdateSweet id d => updateSweet id d
  | DeleteSweet id => deleteSweet id
  | PurchaseSweet id d => purchaseSweet id d
  | RestockSweet id d => restockSweet id d
  end.

End WithHost.
End ApiService.

(** ** contexts/AuthContext.js *)

Module AuthContext.
Section WithHost.
Context `{Host}.

(** What [login] and [register] return: [{ success, message }];
    [register] leaves [message] out. *)
Record Result := mkResult { succeeded : bool; message : option string }.

(** The user record [{ username, token }]. *)
Definition userData (username : string) (token : Json) : Json :=
  JObj [("username", JStr username); ("token", token)].

(** [useState(null)], [useState(true)] *)
Definition initial (w : World) : World := with_loading true (with_user JNull w).

(** The effect that runs once when the provider mounts. *)
Definition loadUser : M unit :=
  storedUser ← getItem "user";
  token ← getItem "token";
  (match storedUser with
   | Some s =>
       if truthy_item storedUser && truthy_item token then
         u ← JSON_parse_or_throw s;
         modify (with_user u)
       else mret tt
   | None => mret tt
   end);;
  modify (with_loading false).

(** The provider at process start: fresh state, then the effect. *)
Definition AuthProvider : M unit := modify initial;; loadUser.

Definition login (username password : string) : M Result :=
  try_catch
    (response ← ApiService.login username password;
     access_token ← read_prop response "access_token";
     match access_token with
     | Some tok =>
         if truthy tok then
           modify (with_user (userData username tok));;
           setItem "user" (JSON_stringify (userData username tok));;
           setItem "token" (ToString tok);;
           mret (mkResult true (Some "Login successful"))
         else mret (mkResult false (Some "Invalid credentials"))
     | None => mret (mkResult false (Some "Invalid credentials"))
     end)
    (λ e, mret (mkResult false (Some (ApiService.getErrorMessage e)))).

Definition register (data : Json) : M Result :=
  try_catch
    (ApiService.register data;;
     ToastBus.showSuccess "Registration successful! Please log in.";;
     mret (mkResult true None))
    (λ e,
     ToastBus.showError (ApiService.getErrorMessage e);;
     mret (mkResult false None)).

Definition logout : M unit :=
  modify (with_user JNull);;
  removeItem "user";;
  removeItem "token";;
  ToastBus.showSuccess "Logged out successfully";;
  mret tt.

(** The context's [isAuthenticated: !!user] and
    [isAdmin: user?.username === "admin"]. *)
Definition isAuthenticated (w : World) : bool := truthy (user w).

Definition isAdmin (w : World) : bool :=
  match own_prop (user w) "username" with
  | Some (JStr s) => String.eqb s "admin"
  | _ => false
  end.

End WithHost.

(** The states of the session store. *)
Inductive SessionState := rehydrating | authenticated | anonymous.

Definition state (w : World) : SessionState :=
  if truthy (user w) then authenticated
  else if loading w then rehydrating
  else anonymous.

End AuthContext.

(** ** components/SweetCard.js *)

Module SweetCard.

Record Sweet := mkSweet {
  id : Q;
  name : string;
  category : string;
  price : Q;
  quantity : Q;
}.

(** The state of one card. *)
Record Card := mkCard {
  isLoading : bool;
  purchaseQuantity : Q;
  showQuantitySelector : bool;
}.

(** [useState(false)], [useState(1)], [useState(false)] *)
Definition initial : Card := mkCard false 1 false.

Definition isOutOfStock (sweet : Sweet) : bool := Qeq_bool (quantity sweet) 0.
Definition isLowStock (sweet : Sweet) : bool :=
  negb (Qle_bool (quantity sweet) 0) && Qle_bool (quantity sweet) 10.

(** The states of the purchase flow, read off the card. *)
Inductive FlowState := idle | selectingQuantity | submitting.

Definition state (card : Card) : FlowState :=
  if isLoading card then submitting
  else if showQuantitySelector card then selectingQuantity
  else idle.

Section WithHost.
Context `{Host}.

(** [response.total_cost.toFixed(2)] *)
Definition total_cost_toFixed (response : Json) : M string :=
  total_cost ← read_prop response "total_cost";
  match total_cost with
  | None => fault (ReadOfUndefined "toFixed")
  | Some JNull => fault (ReadOfNull "toFixed")
  | Some (JNum x) => mret (toFixed 2 x)
  | Some _ => fault (NotAFunction "toFixed")
  end.

(** [handlePurchase] of a card showing [sweet]; [onUpdate] tells whether
    the owner passed a refresh callback, whose call is counted in
    [refreshes].  The result is the card's state afterwards. *)
Definition handlePurchase (sweet : Sweet) (onUpdate : bool) (card : Card) : M Card :=
  if Qle_bool (purchaseQuantity card) 0
     || negb (Qle_bool (purchaseQuantity card) (quantity sweet))
  then
    ToastBus.showError "Invalid quantity selected";;
    mret card
  else
    (* setIsLoading(true) *)
    let card := mkCard true (purchaseQuantity card) (showQuantitySelector card) in
    card' ←
      try_catch
        (response ← ApiService.purchaseSweet (id sweet)
                      (JObj [("quantity", JNum (purchaseQuantity card))]);
         cost ← total_cost_toFixed response;
         ToastBus.showSuccess
           ("Purchased " +:+ NumberToString (purchaseQuantity card) +:+ " " +:+ name sweet
              +:+ "(s) for " +:+ cost);;
         (* setShowQuantitySelector(false); setPurchaseQuantity(1) *)
         let card := mkCard (isLoading card) 1 false in
         (if onUpdate then modify (λ w, with_refreshes (S (refreshes w)) w) else mret tt);;
         mret card)
        (λ e,
         ToastBus.showError (ApiService.getErrorMessage e);;
         mret card);
    (* finally: setIsLoading(false) *)
    mret (mkCard false (purchaseQuantity card') (showQuantitySelector card')).

End WithHost.

(** The Buy button: rendered when the sweet is in stock and the selector
    is hidden; disabled while loading. *)
Definition clickBuy (sweet : Sweet) (card : Card) : Card :=
  if isOutOfStock sweet || showQuantitySelector card || isLoading card then card
  else mkCard (isLoading card) (purchaseQuantity card) true.

(** The quantity input's [onChange]: [setPurchaseQuantity(Number(value))]. *)
Definition changeQuantity (value : Q) (card : Card) : Card :=
  if isLoading card then card
  else mkCard (isLoading card) value (showQuantitySelector card).

(** The Cancel button. *)
Definition clickCancel (card : Card) : Card :=
  if isLoading card then card
  else mkCard (isLoading card) (purchaseQuantity card) false.

End SweetCard.

(** ** The application as a transition system *)

(** A fresh browser profile: nothing stored, nothing mounted. *)
Definition fresh (net : nat → FetchOutcome) (t0 : N) : World :=
  mkWorld ∅ "/" net [] 0%N [] ∅ [] t0 0 JNull true [] 0.

Section Steps.
Context `{Host}.

(** What the sources do to the browser state.  [storeAuthData] and
    [clearAuthData] have no caller in the sources and are no step.  Time
    passes either with every due timer running at once ([step_elapse]) or
    with no timer running ([step_tick]), a due timer then running at any
    later moment ([step_timeout]). *)
Inductive step : World → World → Prop :=
  | step_provider w : step w (AuthContext.AuthProvider w).1
  | step_login username password w : step w (AuthContext.login username password w).1
  | step_register data w : step w (AuthContext.register data w).1
  | step_logout w : step w (AuthContext.logout w).1
  | step_api op w : step w (ApiService.perform op w).1
  | step_purchase sweet onUpdate card w :
      step w (SweetCard.handlePurchase sweet onUpdate card w).1
  | step_toast message type w : step w (ToastBus.showToast message type w).1
  | step_dismiss c id w : step w (ToastBus.removeToast c id w)
  | step_toast_mount w : step w (ToastBus.mount w).1
  | step_toast_unmount c w : step w (ToastBus.unmount c w)
  | step_elapse dt w : step w (ToastBus.elapse dt w)
  | step_tick dt w : step w (ToastBus.tick dt w)
  | step_timeout i w : step w (ToastBus.timeout i w)
  | step_navigate href w : step w (with_location href w).

Definition reachable (w : World) : Prop :=
  ∃ net t0, rtc step (fresh net t0) w.

End Steps.

(** ** A host for the examples

    Integers print in decimal (as [Number::toString] prints them below
    10^21); the fault messages are V8's; the query string is left
    unencoded. *)

Definition example_NumberToString (q : Q) : string :=
  let z := Qfloor q in
  if (z <? 0)%Z then "-" +:+ pretty (Z.to_N (- z)) else pretty (Z.to_N z).

Definition example_fault_message (f : Fault) : string :=
  match f with
  | ReadOfNull p => "Cannot read properties of null (reading '" +:+ p +:+ "')"
  | ReadOfUndefined p => "Cannot read properties of undefined (reading '" +:+ p +:+ "')"
  | NotAFunction p => p +:+ " is not a function"
  | BadJson _ => "Unexpected token in JSON"
  | BadBody => "Unexpected end of JSON input"
  end.

Definition example_host : Host := {|
  NumberToString := example_NumberToString;
  fault_message := example_fault_message;
  URLSearchParams_toString ps := join "&" (map (λ kv, fst kv +:+ "=" +:+ snd kv) ps);
  REACT_APP_API_URL := None;
|}.

(** A server that answers every request the same way. *)
Definition always (o : FetchOutcome) : nat → FetchOutcome := λ _, o.

Definition is_digit (c : ascii) : bool :=
  ((48 <=? N_of_ascii c) && (N_of_ascii c <=? 57))%N.

Fixpoint all_digits (s : string) : bool :=
  match s with
  | EmptyString => true
  | String c rest => is_digit c && all_digits rest
  end.

(** ** Frames, invariants and what the 401 branch does *)

(** Two worlds that differ at most in what Toast.js owns. *)
Definition bus_frame (w w' : World) : Prop :=
  localStorage w' = localStorage w ∧ location_href w' = location_href w ∧
  network w' = network w ∧ requests w' = requests w ∧
  toastListeners w' = toastListeners w ∧ now w' = now w ∧
  instances w' = instances w ∧ user w' = user w ∧ loading w' = loading w ∧
  refreshes w' = refreshes w.

(** A computation keeps a relation when its final world is related to
    its initial one, whether it returns or throws. *)
Definition keeps {A} (R : relation World) (m : M A) : Prop := ∀ w, R w (m w).1.

(** A relation between worlds that every basic effect of the sources
    keeps; then every operation of the sources keeps it. *)
Class Respected (R : relation World) : Prop := {
  respected_preorder :: PreOrder R;
  respected_requests w l : R w (with_requests l w);
  respected_user w u : R w (with_user u w);
  respected_loading w b : R w (with_loading b w);
  respected_location w href : R w (with_location href w);
  respected_refreshes w n : R w (with_refreshes n w);
  respected_remove w k : R w (with_localStorage (delete k) w);
  respected_set_user w v : R w (with_localStorage <["user" := v]> w);
  respected_set_token w v : R w (with_localStorage <["token" := v]> w);
  respected_toast message type : keeps R (ToastBus.showToast message type);
}.

(** Every toast a component shows has a timer pending that will drop it
    4000 ms after it was made. *)
Definition timers_cover (w : World) : Prop :=
  ∀ c ts t, toasts w !! c = Some ts → t ∈ ts →
    mkTimer (toast_timestamp t + 4000) c (toast_id t) ∈ timers w.

Definition keeps_timers_cover : relation World :=
  λ w w', timers_cover w → timers_cover w'.

(** The timers are on time: no pending timer is overdue. *)
Definition timers_pending (w : World) : Prop :=
  ∀ tm, tm ∈ timers w → (now w < due tm)%N.

(** The client finds no credential: the entry "access_token" is absent
    or empty. *)
Definition no_access_token (w : World) : Prop :=
  truthy_item (localStorage w !! "access_token") = false.

Definition keeps_no_access_token : relation World :=
  λ w w', no_access_token w → no_access_token w'.

(** What the 401 branch of [handleResponse] does to the browser. *)
Definition unauthorized (w : World) : World :=
  with_location "/login"
    (with_localStorage (delete "user") (with_localStorage (delete "access_token") w)).

Definition session_expired : Thrown :=
  mkThrown Error "Session expired. Please login again.".


(** ** Worlds and values for the examples *)

Definition invalid_quantity_world : World :=
  fresh (always (Responds (mkResponse 200 None))) 0.

(** Product 5, of which two are left. *)
Definition scarce_sweet : SweetCard.Sweet := SweetCard.mkSweet 5 "Ladoo" "Indian" (5 # 2) 2.

Definition purchase_sweet : SweetCard.Sweet := SweetCard.mkSweet 5 "Ladoo" "Indian" (5 # 2) 10.
Definition purchase_card : SweetCard.Card := SweetCard.mkCard false 3 true.

(** The server answers 200 with [{ "total_cost": 7.5 }]. *)
Definition purchase_world : World :=
  fresh (always (Responds (mkResponse 200 (Some (JObj [("total_cost", JNum (15 # 2))]))))) 0.

Definition no_content_world : World := fresh (always (Responds (mkResponse 204 None))) 0.

(** The server accepts the login and later answers 401. *)
Definition expiring_network (n : nat) : FetchOutcome :=
  match n with
  | O => Responds (mkResponse 200 (Some (JObj [("access_token", JStr "abc")])))
  | S _ => Responds (mkResponse 401 None)
  end.

Definition logged_in_world : World :=
  (@AuthContext.login example_host "testuser" "test123" (fresh expiring_network 0)).1.

Definition not_found_response : Response :=
  mkResponse 404 (Some (JObj [("detail", JStr "Sweet not found")])).

(** Both entries are present, but the user entry is not JSON. *)
Definition corrupt_storage_world : World :=
  with_localStorage (λ _, <["token" := "abc"]> (<["user" := "not json"]> ∅))
    (fresh expiring_network 0).

(** The user entry is not JSON and there is no token entry. *)
Definition corrupt_user_world : World :=
  with_localStorage (λ _, <["user" := "not json"]> ∅) (fresh expiring_network 0).

(** A Toast component is mounted, a toast is published at time 0 and
    3999 ms pass. *)
Definition toast_world : World :=
  ToastBus.elapse 3999
    (ToastBus.showToast "Logged out successfully" success
       (ToastBus.mount (fresh expiring_network 0)).1).1.

(** The text [{"username":"testuser","token":"abc"}]. *)
Definition testuser_record_text : string :=
  "{" +:+ String dquote "username" +:+ String dquote ":" +:+ String dquote "testuser"
    +:+ String dquote "," +:+ String dquote "token" +:+ String dquote ":"
    +:+ String dquote "abc" +:+ String dquote "}".


(** After the login, a request is answered 401 and the provider is
    mounted again: no user in memory, the entry "token" still stored. *)
Definition stale_token_world : World :=
  (@AuthContext.AuthProvider example_host
     (@ApiService.perform example_host ApiService.GetSweets logged_in_world).1).1.

(** A profile that holds an "access_token" before the login. *)
Definition stale_access_world : World :=
  with_localStorage <["access_token" := "stale"]> (fresh expiring_network 0).

(** ** Tactics *)

(** Unfold the monad, to run a computation on a world. *)
Ltac run :=
  unfold getItem, setItem, removeItem, fault, mbind, M_bind, mret, M_ret, bind, ret, throw,
    try_catch, modify, gets in *.

(** One character of the input, when the lexer's state and the character
    are known. *)
Ltac lex_char :=
  cbn [lex];
  match goal with
  | |- context [lex_step ?st ?c] =>
      let r := eval vm_compute in (lex_step st c) in
      change (lex_step st c) with r; cbv beta iota
  end.

(** ** More built-ins: [String.prototype.trim] and [includes] *)

(** White space and line terminators of one byte (TAB, LF, VT, FF, CR,
    SP), of two (U+00A0) and of three (U+1680, U+2000..U+200A, U+2028,
    U+2029, U+202F, U+205F, U+3000, U+FEFF), in UTF-8. *)
Definition ws1 (a : ascii) : bool :=
  let n := N_of_ascii a in (((9 <=? n) && (n <=? 13)) || (n =? 32))%N.

Definition ws2 (a b : ascii) : bool :=
  ((N_of_ascii a =? 194) && (N_of_ascii b =? 160))%N.

Definition ws3 (a b c : ascii) : bool :=
  let x := N_of_ascii a in
  let y := N_of_ascii b in
  let z := N_of_ascii c in
  (((x =? 225) && (y =? 154) && (z =? 128))
   || ((x =? 226) && (y =? 128)
       && (((128 <=? z) && (z <=? 138)) || (z =? 168) || (z =? 169) || (z =? 175)))
   || ((x =? 226) && (y =? 129) && (z =? 159))
   || ((x =? 227) && (y =? 128) && (z =? 128))
   || ((x =? 239) && (y =? 187) && (z =? 191)))%N.

(** Drop the white space a list of bytes starts with; with [back], the
    list is a reversed text and the bytes of a character come last
    first. *)
Fixpoint strip (back : bool) (l : list ascii) : list ascii :=
  match l with
  | [] => []
  | a :: r1 =>
      if ws1 a then strip back r1
      else
        match r1 with
        | [] => l
        | b :: r2 =>
            if (if back then ws2 b a else ws2 a b) then strip back r2
            else
              match r2 with
              | [] => l
              | c :: r3 => if (if back then ws3 c b a else ws3 a b c) then strip back r3 else l
              end
        end
  end.

(** [s.trim()] *)
Definition trim (s : string) : string :=
  String.string_of_list_ascii
    (rev (strip true (rev (strip false (String.list_ascii_of_string s))))).

(** [s.includes(search)] *)
Fixpoint includes (s search : string) : bool :=
  String.prefix search s
  || match s with
     | EmptyString => false
     | String _ rest => includes rest search
     end.

(** ** pages/LoginPage.js *)

Module LoginPage.

(** The two inputs of the form, by their [name]. *)
Inductive Field := username | password.

(** The state of the page: [formData], [showPassword], [isSubmitting]
    and [errors] (a missing or undefined error is [None]). *)
Record Page := mkPage {
  formData_username : string;
  formData_password : string;
  showPassword : bool;
  isSubmitting : bool;
  errors_username : option string;
  errors_password : option string;
}.

(** [useState({ username: '', password: '' })], [useState(false)],
    [useState(false)], [useState({})] *)
Definition initial : Page := mkPage "" "" false false None None.

(** [validateForm()]: the new [errors] and whether there is none. *)
Definition validateForm (p : Page) : Page * bool :=
  let eu := if String.eqb (trim (formData_username p)) "" then Some "Username is required"
            else None in
  let ep := if String.eqb (formData_password p) "" then Some "Password is required"
            else None in
  (mkPage (formData_username p) (formData_password p) (showPassword p) (isSubmitting p) eu ep,
   match eu, ep with None, None => true | _, _ => false end).

(** [handleInputChange(e)] for the input [name] holding [value]. *)
Definition handleInputChange (name : Field) (value : string) (p : Page) : Page :=
  match name with
  | username =>
      mkPage value (formData_password p) (showPassword p) (isSubmitting p)
        (if truthy_item (errors_username p) then None else errors_username p)
        (errors_password p)
  | password =>
      mkPage (formData_username p) value (showPassword p) (isSubmitting p)
        (errors_username p)
        (if truthy_item (errors_password p) then None else errors_password p)
  end.

Section WithHost.
Context `{Host}.

(** [handleSubmit(e)]; the result is the page's state afterwards.  A
    result without a message would give a toast without text. *)
Definition handleSubmit (p : Page) : M Page :=
  let '(p, valid) := validateForm p in
  if negb valid then mret p
  else
    (* setIsSubmitting(true) *)
    result ← AuthContext.login (formData_username p) (formData_password p);
    (if AuthContext.succeeded result
     then ToastBus.showSuccess (default "" (AuthContext.message result))
     else ToastBus.showError (default "" (AuthContext.message result)));;
    (* setIsSubmitting(false) *)
    mret (mkPage (formData_username p) (formData_password p) (showPassword p) false
            (errors_username p) (errors_password p)).

End WithHost.


End LoginPage.

(** ** App.js *)

Module App.
Section WithHost.
Context `{Host}.

(** [testApi()]: the new [apiStatus]. *)
Definition testApi : M string :=
  try_catch
    (ApiService.getSweets;;
     mret "API Connected (Authentication required)")
    (λ e,
     if includes (emessage e) "401" || includes (emessage e) "Session expired"
     then mret "API Connected (Ready for authentication)"
     else mret ("API Error: " +:+ emessage e)).

End WithHost.
End App.

(** ** More invariants of the toast bus *)

(** The ids of a list of toasts increase from left to right. *)
Definition ids_increase (l : list Toast) : Prop :=
  ∀ l1 l2 t1 t2, l = l1 ++ l2 → t1 ∈ l1 → t2 ∈ l2 → (toast_id t1 < toast_id t2)%N.

(** The listeners are the mounted components, each once and each an
    instance already made; the published toasts carry increasing ids, up
    to [toastId]; and what a component shows is a sublist of the
    published toasts. *)
Definition bus_wf (w : World) : Prop :=
  NoDup (toastListeners w) ∧
  (∀ c, c ∈ toastListeners w ↔ is_Some (toasts w !! c)) ∧
  (∀ c, c ∈ toastListeners w → (c < instances w)%nat) ∧
  ids_increase (published w) ∧
  Forall (λ t, (toast_id t ≤ toastId w)%N) (published w) ∧
  (∀ c ts, toasts w !! c = Some ts → sublist ts (published w)).

Definition keeps_bus_wf : relation World := λ w w', bus_wf w → bus_wf w'.

(** A second Toast component is mounted before the toast of
    [toast_world] is published. *)
Definition two_toasts_world : World :=
  (ToastBus.mount (ToastBus.mount (fresh expiring_network 0)).1).1.

(** A server that never answers. *)
Definition offline_network : nat → FetchOutcome :=
  always (Rejects (mkThrown TypeError "Failed to fetch")).

(** * Properties *)

(** ** The models of the built-ins, on examples *)

Example toFixed_7_5 : @toFixed example_host 2 (15 # 2) = "7.50".
Proof. reflexivity. Qed.

Example toFixed_tie_goes_up : @toFixed example_host 2 (1 # 200) = "0.01".
Proof. reflexivity. Qed.

Example toFixed_small_negative : @toFixed example_host 2 (-1 # 1000) = "-0.00".
Proof. reflexivity. Qed.

Example toFixed_pads : @toFixed example_host 2 (1 # 20) = "0.05".
Proof. reflexivity. Qed.

Example JSON_parse_values :
  JSON_parse " [1, 2.5e1, -0, true, null, {}, []] "
  = Some (JArr [JNum 1; JNum 25; JNum 0; JBool true; JNull; JObj []; JArr []]).
Proof. reflexivity. Qed.

Example JSON_parse_escapes :
  JSON_parse (QuoteJSONString (String (ascii_of_N 10) (String dquote (String backslash "a"))))
  = Some (JStr (String (ascii_of_N 10) (String dquote (String backslash "a")))).
Proof. reflexivity. Qed.

Example JSON_parse_rejects :
  JSON_parse "not json" = None ∧ JSON_parse "" = None ∧ JSON_parse "01" = None ∧
  JSON_parse "[1,]" = None ∧ JSON_parse "{,}" = None ∧ JSON_parse "1 2" = None ∧
  JSON_parse "-" = None ∧ JSON_parse "1." = None ∧ JSON_parse "nul" = None ∧
  JSON_parse "[1" = None ∧ JSON_parse "'a'" = None.
Proof. repeat split; reflexivity. Qed.

Example truthy_values :
  truthy (JStr "") = false ∧ truthy (JStr "0") = true ∧ truthy (JNum 0) = false ∧
  truthy (JNum (1 # 10 ^ 400)) = false ∧ truthy (JNum (1 # 10 ^ 300)) = true ∧
  truthy (JArr []) = true ∧ truthy (JObj []) = true ∧ truthy JNull = false.
Proof. repeat split; reflexivity. Qed.



(** ** Small facts *)

Lemma Qle_bool_false (x y : Q) : Qle_bool x y = false ↔ (y < x)%Q.
Proof.
  split.
  - intros Hb. apply Qnot_le_lt. intros Hle. apply Qle_bool_iff in Hle. congruence.
  - intros Hlt. destruct (Qle_bool x y) eqn:E; [|done].
    apply Qle_bool_iff in E. exfalso. eapply Qlt_not_le; eauto.
Qed.

Lemma truthy_item_Some (o : option string) :
  truthy_item o = true ↔ ∃ s, o = Some s ∧ s ≠ "".
Proof.
  destruct o as [s|]; simpl.
  - destruct (String.eqb_spec s "") as [->|Hne]; simpl.
    + split; [done|]. intros (s & [= <-] & ?). done.
    + split; [eauto|done].
  - split; [done|]. intros (s & ? & _). done.
Qed.

Lemma truthy_item_None : truthy_item None = false.
Proof. reflexivity. Qed.

(** ** The toast bus: what [showToast] leaves alone *)


Lemma bus_frame_refl w : bus_frame w w.
Proof. by repeat split. Qed.

Lemma bus_frame_trans w1 w2 w3 : bus_frame w1 w2 → bus_frame w2 w3 → bus_frame w1 w3.
Proof. unfold bus_frame. intros ? ?. destruct_and!. repeat split; congruence. Qed.

Lemma listeners_frame toast l w :
  let w' := foldl (λ w' c, ToastBus.listener c toast w') w l in
  bus_frame w w' ∧ toastId w' = toastId w ∧ published w' = published w.
Proof.
  revert w. induction l as [|c l IH]; intros w; simpl.
  - split; [apply bus_frame_refl|done].
  - destruct (IH (ToastBus.listener c toast w)) as (Hf & Hid & Hpub).
    split; [|split].
    + eapply bus_frame_trans; [|exact Hf]. by repeat split.
    + by rewrite Hid.
    + by rewrite Hpub.
Qed.

Lemma showToast_effect message type w :
  ∃ w', ToastBus.showToast message type w = (w', Returned (toastId w + 1)%N) ∧
        bus_frame w w' ∧ toastId w' = (toastId w + 1)%N ∧
        published w' = published w ++ [mkToast (toastId w + 1) message type (now w)].
Proof.
  unfold ToastBus.showToast. eexists. split; [reflexivity|].
  match goal with |- context [foldl _ ?w1 ?l] =>
    destruct (listeners_frame (mkToast (toastId w + 1) message type (now w)) l w1)
      as (Hf & Hid & Hpub) end.
  split; [|split].
  - eapply bus_frame_trans; [|exact Hf]. by repeat split.
  - by rewrite Hid.
  - by rewrite Hpub.
Qed.

(** ** [toFixed] *)

Lemma append_cons c s t : String c s +:+ t = String c (s +:+ t).
Proof. reflexivity. Qed.

Lemma append_nil t : EmptyString +:+ t = t.
Proof. reflexivity. Qed.

Lemma all_digits_app s1 s2 :
  all_digits (s1 +:+ s2) = all_digits s1 && all_digits s2.
Proof.
  induction s1 as [|c s1 IH]; [done|].
  rewrite append_cons. simpl. by rewrite IH, andb_assoc.
Qed.

Lemma all_digits_zeros n : all_digits (zeros n) = true.
Proof. induction n; simpl; done. Qed.

Lemma length_zeros n : String.length (zeros n) = n.
Proof. induction n as [|n IH]; simpl; [done|]. by rewrite IH. Qed.

Lemma length_app s1 s2 :
  String.length (s1 +:+ s2) = (String.length s1 + String.length s2)%nat.
Proof.
  induction s1 as [|c s1 IH]; [done|].
  rewrite append_cons. simpl. by rewrite IH.
Qed.

Lemma s_take_drop n s : s_take n s +:+ s_drop n s = s.
Proof.
  revert s. induction n as [|n IH]; intros [|c s]; simpl; try done.
  rewrite append_cons. f_equal. apply IH.
Qed.

Lemma length_s_drop n s : String.length (s_drop n s) = (String.length s - n)%nat.
Proof.
  revert s. induction n as [|n IH]; intros [|c s]; simpl; try done.
Qed.

Lemma length_s_take n s :
  (n ≤ String.length s)%nat → String.length (s_take n s) = n.
Proof.
  revert s. induction n as [|n IH]; intros [|c s]; simpl; try done; try lia.
  intros Hle. rewrite IH; lia.
Qed.

Lemma is_digit_pretty_N_char x : (x < 10)%N → is_digit (pretty_N_char x) = true.
Proof.
  intros Hx.
  assert (x = 0 ∨ x = 1 ∨ x = 2 ∨ x = 3 ∨ x = 4 ∨ x = 5 ∨ x = 6 ∨ x = 7 ∨ x = 8 ∨ x = 9)%N
    as Hc by lia.
  repeat (destruct Hc as [->|Hc]; [reflexivity|]). by subst.
Qed.

Lemma pretty_N_go_digits x s :
  all_digits s = true →
  all_digits (pretty_N_go x s) = true ∧
  (String.length s ≤ String.length (pretty_N_go x s))%nat ∧
  ((0 < x)%N → (String.length s < String.length (pretty_N_go x s))%nat).
Proof.
  revert s. induction (N.lt_wf_0 x) as [x _ IH]; intros s Hs.
  destruct (decide (x = 0)%N) as [->|Hx].
  - rewrite pretty_N_go_0. split; [done|]. split; [done|lia].
  - rewrite pretty_N_go_step by lia.
    destruct (IH (x `div` 10)%N) with (s := String (pretty_N_char (x `mod` 10)) s)
      as (Hd & Hlen & _).
    + apply N.div_lt; lia.
    + simpl. rewrite Hs, is_digit_pretty_N_char; [done|]. apply N.mod_lt. lia.
    + simpl in Hlen. split; [done|]. split; [lia|]. intros _. lia.
Qed.

Lemma pretty_N_digits (n : N) :
  all_digits (pretty n) = true ∧ (1 ≤ String.length (pretty n))%nat.
Proof.
  unfold pretty, pretty_N. case_decide as Hn.
  - split; [reflexivity|simpl; lia].
  - destruct (pretty_N_go_digits n "") as (Hd & _ & Hlen); [done|].
    split; [done|]. specialize (Hlen ltac:(lia)). simpl in Hlen. lia.
Qed.

(** The digits of a string of length two. *)
Lemma two_chars s :
  String.length s = 2%nat → ∃ d1 d2, s = String d1 (String d2 EmptyString).
Proof. destruct s as [|d1 [|d2 [|? ?]]]; simpl; try done. eauto. Qed.

(** Below 10^21, [toFixed(2)] writes a sign, at least one digit, a point
    and exactly two digits. *)
Lemma toFixed_2_shape `{Host} (x : Q) :
  (Qabs x < inject_Z (10 ^ 21))%Q →
  ∃ a d1 d2,
    toFixed 2 x
      = (if Qle_bool 0 x then EmptyString else "-")
          +:+ a +:+ "." +:+ String d1 (String d2 EmptyString) ∧
    a ≠ EmptyString ∧ all_digits a = true ∧ is_digit d1 = true ∧ is_digit d2 = true.
Proof.
  intros Hsmall. unfold toFixed.
  set (neg := negb (Qle_bool 0 x)).
  set (ax := if neg then Qopp x else x).
  assert (Qle_bool (inject_Z (10 ^ 21)) ax = false) as ->.
  { apply Qle_bool_false. subst ax neg.
    destruct (Qle_bool 0 x) eqn:E; simpl.
    - apply Qle_bool_iff in E. by rewrite Qabs_pos in Hsmall.
    - apply Qle_bool_false in E. rewrite Qabs_neg in Hsmall; [done|]. by apply Qlt_le_weak. }
  set (n := Z.to_N _).
  destruct (pretty_N_digits n) as (Hd & Hlen).
  set (m := pretty n) in *.
  set (m' := if (String.length m <=? 2)%nat then zeros (2 + 1 - String.length m) +:+ m else m).
  assert (all_digits m' = true ∧ (3 ≤ String.length m')%nat) as (Hd' & Hlen').
  { subst m'. destruct (Nat.leb_spec (String.length m) 2).
    - rewrite all_digits_app, all_digits_zeros, Hd, length_app, length_zeros. split; [done|lia].
    - split; [done|lia]. }
  destruct (two_chars (s_drop (String.length m' - 2) m')) as (d1 & d2 & Hdrop).
  { rewrite length_s_drop. lia. }
  exists (s_take (String.length m' - 2) m'), d1, d2.
  pose proof (s_take_drop (String.length m' - 2) m') as Hsplit.
  rewrite Hdrop in Hsplit.
  assert (all_digits (s_take (String.length m' - 2) m') = true ∧
          is_digit d1 = true ∧ is_digit d2 = true) as (Ha & H1 & H2).
  { rewrite <- Hsplit in Hd'. rewrite all_digits_app in Hd'. simpl in Hd'.
    rewrite andb_true_r in Hd'.
    apply andb_prop in Hd' as [Ha H12]. apply andb_prop in H12 as [H1 H2]. done. }
  split; [|split; [|done]].
  - subst neg. simpl. rewrite Hdrop. destruct (Qle_bool 0 x); reflexivity.
  - intros Hempty.
    pose proof (length_s_take (String.length m' - 2) m' ltac:(lia)) as Hl.
    rewrite Hempty in Hl. simpl in Hl. lia.
Qed.

(** ** Computations that keep a relation between the worlds *)


Section Keeps.
Context (R : relation World) `{!PreOrder R}.

Lemma keeps_ret {A} (a : A) : keeps R (mret a).
Proof. intros w. simpl. reflexivity. Qed.

Lemma keeps_throw {A} e : keeps R (throw (A := A) e).
Proof. intros w. simpl. reflexivity. Qed.

Lemma keeps_fault `{Host} {A} f : keeps R (fault (A := A) f).
Proof. apply keeps_throw. Qed.

Lemma keeps_gets {A} (f : World → A) : keeps R (gets f).
Proof. intros w. simpl. reflexivity. Qed.

Lemma keeps_bind {A B} (m : M A) (k : A → M B) :
  keeps R m → (∀ a, keeps R (k a)) → keeps R (m ≫= k).
Proof.
  intros Hm Hk w. run. specialize (Hm w).
  destruct (m w) as [w1 [a|e]]; simpl in *; [|done].
  etrans; [exact Hm|]. apply Hk.
Qed.

Lemma keeps_try_catch {A} (m : M A) (h : Thrown → M A) :
  keeps R m → (∀ e, keeps R (h e)) → keeps R (try_catch m h).
Proof.
  intros Hm Hh w. run. specialize (Hm w).
  destruct (m w) as [w1 [a|e]]; simpl in *; [done|].
  etrans; [exact Hm|]. apply Hh.
Qed.

Lemma keeps_modify (f : World → World) : (∀ w, R w (f w)) → keeps R (modify f).
Proof. intros Hf w. apply Hf. Qed.

End Keeps.

Section Operations.
Context `{Host} (R : relation World) `{!Respected R}.

Ltac keeps_step :=
  first
    [ apply keeps_ret | apply keeps_throw | apply keeps_fault | apply keeps_gets
    | apply keeps_bind | apply keeps_try_catch
    | apply keeps_modify; intros; first
        [ apply respected_requests | apply respected_user | apply respected_loading
        | apply respected_location | apply respected_refreshes | apply respected_remove
        | apply respected_set_user | apply respected_set_token ]
    | apply respected_toast
    | apply _
    | intro
    | case_match ].

Ltac keeps := repeat keeps_step.

Lemma keeps_fetch req : keeps R (ApiService.fetch req).
Proof.
  intros w. unfold ApiService.fetch.
  destruct (network w (length (requests w))); simpl; apply respected_requests.
Qed.

Lemma keeps_handleResponse response : keeps R (ApiService.handleResponse response).
Proof.
  unfold ApiService.handleResponse, ApiService.json, read_prop, removeItem.
  keeps.
Qed.

Lemma keeps_getAuthHeaders : keeps R ApiService.getAuthHeaders.
Proof. unfold ApiService.getAuthHeaders, getItem. keeps. Qed.

Lemma keeps_perform op : keeps R (ApiService.perform op).
Proof.
  destruct op; simpl;
    unfold ApiService.register, ApiService.login, ApiService.getCurrentUser,
      ApiService.getSweets, ApiService.searchSweets, ApiService.createSweet,
      ApiService.updateSweet, ApiService.deleteSweet, ApiService.purchaseSweet,
      ApiService.restockSweet;
    repeat first [ apply keeps_bind | apply keeps_fetch | apply keeps_handleResponse
                 | apply keeps_getAuthHeaders | apply _ | intro ].
Qed.

Lemma keeps_AuthProvider : keeps R AuthContext.AuthProvider.
Proof.
  unfold AuthContext.AuthProvider, AuthContext.loadUser, AuthContext.initial,
    JSON_parse_or_throw, getItem.
  keeps. etrans; [apply respected_user|apply respected_loading].
Qed.

Lemma keeps_login username password : keeps R (AuthContext.login username password).
Proof.
  unfold AuthContext.login, read_prop, setItem.
  apply keeps_try_catch; [apply _| |keeps].
  apply keeps_bind; [apply _|apply (keeps_perform (ApiService.Login username password))|].
  keeps.
Qed.

Lemma keeps_register data : keeps R (AuthContext.register data).
Proof.
  unfold AuthContext.register, ToastBus.showSuccess, ToastBus.showError.
  apply keeps_try_catch; [apply _| |keeps].
  apply keeps_bind; [apply _|apply (keeps_perform (ApiService.Register data))|].
  keeps.
Qed.

Lemma keeps_logout : keeps R AuthContext.logout.
Proof. unfold AuthContext.logout, ToastBus.showSuccess, removeItem. keeps. Qed.

Lemma keeps_handlePurchase sweet onUpdate card :
  keeps R (SweetCard.handlePurchase sweet onUpdate card).
Proof.
  unfold SweetCard.handlePurchase, SweetCard.total_cost_toFixed, read_prop,
    ToastBus.showSuccess, ToastBus.showError.
  case_match; [keeps|].
  apply keeps_bind; [apply _| |keeps].
  apply keeps_try_catch; [apply _| |keeps].
  apply keeps_bind; [apply _|eapply (keeps_perform (ApiService.PurchaseSweet _ _))|].
  keeps.
Qed.

End Operations.
(** ** The invariant of the toast bus *)

Lemma timers_cover_same w w' :
  toasts w' = toasts w → timers w' = timers w →
  timers_cover w → timers_cover w'.
Proof.
  intros Ht Htm Hc c ts t. rewrite Ht, Htm. apply Hc.
Qed.

Lemma listener_cover c toast w :
  toast_timestamp toast = now w →
  timers_cover w → timers_cover (ToastBus.listener c toast w).
Proof.
  intros Hts Hc c' ts t. simpl. rewrite lookup_alter. case_decide as Hcc.
  - subst c'. destruct (toasts w !! c) as [old|] eqn:Hold; simpl; [|done].
    intros [= <-] [Hin|Hin%list_elem_of_singleton]%elem_of_app; apply elem_of_app.
    + left. eapply Hc; eauto.
    + right. subst t. rewrite Hts. apply list_elem_of_singleton. done.
  - intros Hl Hin. apply elem_of_app. left. eapply Hc; eauto.
Qed.

Lemma listeners_cover toast l w :
  toast_timestamp toast = now w →
  timers_cover w → timers_cover (foldl (λ w' c, ToastBus.listener c toast w') w l).
Proof.
  revert w. induction l as [|c l IH]; intros w Hts Hinv; simpl; [done|].
  apply IH; [done|]. by apply listener_cover.
Qed.

Lemma showToast_cover message type w :
  timers_cover w → timers_cover (ToastBus.showToast message type w).1.
Proof.
  intros Hinv. unfold ToastBus.showToast. simpl.
  apply listeners_cover; [done|].
  eapply timers_cover_same; [..|exact Hinv]; done.
Qed.

Lemma listeners_pending toast l w :
  timers_pending w → timers_pending (foldl (λ w' c, ToastBus.listener c toast w') w l).
Proof.
  revert w. induction l as [|c l IH]; intros w Hp; simpl; [done|].
  apply IH. intros tm. simpl. intros [Hin|Hin%list_elem_of_singleton]%elem_of_app.
  - by apply Hp.
  - subst tm. simpl. lia.
Qed.

Lemma showToast_pending message type w :
  timers_pending w → timers_pending (ToastBus.showToast message type w).1.
Proof.
  intros Hp. unfold ToastBus.showToast. simpl. by apply listeners_pending.
Qed.







Lemma timeout_frame i w :
  bus_frame w (ToastBus.timeout i w) ∧
  toastId (ToastBus.timeout i w) = toastId w ∧
  published (ToastBus.timeout i w) = published w.
Proof.
  unfold ToastBus.timeout. destruct (timers w !! i) as [tm|];
    [destruct (decide (due tm ≤ now w)%N)|]; by repeat split.
Qed.


Lemma filter_all {A} (P : A → Prop) `{!∀ x, Decision (P x)} (l : list A) :
  (∀ x, P x) → filter P l = l.
Proof.
  intros HP. induction l as [|x l IH]; [done|].
  rewrite filter_cons_True by done. by rewrite IH.
Qed.

(** What firing a list of timers leaves of a component's toasts. *)
Lemma fire_all_toasts l w c :
  toasts (foldl (λ w' tm, ToastBus.fire tm w') w l) !! c
  = filter (λ t, Forall (λ tm, owner tm = c → toast_id t ≠ target tm) l) <$> toasts w !! c.
Proof.
  revert w. induction l as [|tm l IH]; intros w; simpl.
  - destruct (toasts w !! c) as [ts|]; simpl; [|done]. f_equal.
    symmetry. apply filter_all. intros t. constructor.
  - rewrite IH. simpl. rewrite lookup_alter. case_decide as Hcc.
    + destruct (toasts w !! owner tm) as [ts|] eqn:Hts; rewrite <- Hcc, ?Hts; simpl; [|done].
      f_equal. unfold ToastBus.without. rewrite list_filter_filter.
      apply list_filter_iff. intros t. rewrite Forall_cons. split.
      * intros [Hrest Hne]. split; [by intros _|done].
      * intros [Hne Hrest]. split; [done|]. by apply Hne.
    + destruct (toasts w !! c) as [ts|]; simpl; [|done]. f_equal.
      apply list_filter_iff. intros t. rewrite Forall_cons. split.
      * intros Hrest. split; [by intros ?|done].
      * by intros [_ Hrest].
Qed.

Lemma fire_all_frame l w :
  let w' := foldl (λ w' tm, ToastBus.fire tm w') w l in
  timers w' = timers w ∧ now w' = now w ∧ bus_frame w w' ∧
  toastId w' = toastId w ∧ published w' = published w.
Proof.
  revert w. induction l as [|tm l IH]; intros w; simpl.
  - by repeat split.
  - destruct (IH (ToastBus.fire tm w)) as (Ht & Hn & Hf & Hid & Hpub).
    repeat split; try (etrans; [eassumption|done]).
    all: destruct Hf as (?&?&?&?&?&?&?&?&?&?); simpl in *; congruence.
Qed.



#[local] Instance keeps_timers_cover_respected : Respected keeps_timers_cover.
Proof.
  unfold keeps_timers_cover. split.
  - split; [by intros w|]. intros w1 w2 w3 H12 H23 Hinv. by apply H23, H12.
  - intros w l. by apply timers_cover_same.
  - intros w u. by apply timers_cover_same.
  - intros w b. by apply timers_cover_same.
  - intros w href. by apply timers_cover_same.
  - intros w n. by apply timers_cover_same.
  - intros w k. by apply timers_cover_same.
  - intros w v. by apply timers_cover_same.
  - intros w v. by apply timers_cover_same.
  - intros message type w. apply showToast_cover.
Qed.

(** ** The client's storage key is never written *)

#[local] Instance keeps_no_access_token_respected : Respected keeps_no_access_token.
Proof.
  unfold keeps_no_access_token, no_access_token. split.
  - split; [by intros w|]. intros w1 w2 w3 H12 H23 Hinv. by apply H23, H12.
  - done.
  - done.
  - done.
  - done.
  - done.
  - intros w k Hno. simpl. rewrite lookup_delete. by case_decide.
  - intros w v Hno. simpl in *. by rewrite lookup_insert_ne.
  - intros w v Hno. simpl in *. by rewrite lookup_insert_ne.
  - intros message type w Hno.
    destruct (showToast_effect message type w) as (w' & -> & Hf & _).
    destruct Hf as (Hs & _). simpl. by rewrite Hs.
Qed.

(** A relation the operations respect, and the toast components too, is
    kept by every step. *)
Lemma step_keeps `{Host} (R : relation World) `{!Respected R} :
  (∀ c id w, R w (ToastBus.removeToast c id w)) →
  (∀ w, R w (ToastBus.mount w).1) →
  (∀ c w, R w (ToastBus.unmount c w)) →
  (∀ dt w, R w (ToastBus.elapse dt w)) →
  (∀ dt w, R w (ToastBus.tick dt w)) →
  (∀ i w, R w (ToastBus.timeout i w)) →
  ∀ w w', step w w' → R w w'.
Proof.
  intros Hremove Hmount Hunmount Helapse Htick Htimeout w w' Hstep.
  destruct Hstep.
  - apply keeps_AuthProvider, _.
  - apply keeps_login, _.
  - apply keeps_register, _.
  - apply keeps_logout, _.
  - apply keeps_perform, _.
  - apply keeps_handlePurchase, _.
  - apply respected_toast.
  - apply Hremove.
  - apply Hmount.
  - apply Hunmount.
  - apply Helapse.
  - apply Htick.
  - apply Htimeout.
  - apply respected_location.
Qed.


Lemma elapse_storage dt w : localStorage (ToastBus.elapse dt w) = localStorage w.
Proof.
  unfold ToastBus.elapse.
  match goal with |- context [foldl _ ?w1 ?l] =>
    pose proof (fire_all_frame l w1) as (_ & _ & (-> & _) & _) end.
  done.
Qed.

Lemma timeout_storage i w : localStorage (ToastBus.timeout i w) = localStorage w.
Proof. by destruct (timeout_frame i w) as ((-> & _) & _). Qed.

(** No step of the application writes "access_token". *)
Lemma step_no_access_token `{Host} w w' : step w w' → no_access_token w → no_access_token w'.
Proof.
  revert w w'. apply (step_keeps keeps_no_access_token);
    unfold keeps_no_access_token, no_access_token; try done.
  - intros dt w0 Hno. by rewrite elapse_storage.
  - intros i w0 Hno. by rewrite timeout_storage.
Qed.

Lemma rtc_step_no_access_token `{Host} w w' :
  rtc step w w' → no_access_token w → no_access_token w'.
Proof.
  intros Hrtc. induction Hrtc as [|w1 w2 w3 Hstep _ IH]; [done|].
  intros Hno. by eapply IH, step_no_access_token.
Qed.

Lemma reachable_no_access_token `{Host} w : reachable w → no_access_token w.
Proof.
  intros (net & t0 & Hrtc). by eapply rtc_step_no_access_token.
Qed.

(** ** The HTTP client *)

Lemma handleResponse_401 `{Host} response w :
  status response = 401%N →
  ApiService.handleResponse response w = (unauthorized w, Threw session_expired).
Proof. intros Hst. unfold ApiService.handleResponse. by rewrite Hst. Qed.

Lemma handleResponse_other `{Host} response w :
  status response ≠ 401%N → ∃ r, ApiService.handleResponse response w = (w, r).
Proof.
  intros Hst. unfold ApiService.handleResponse, ApiService.json, read_prop.
  destruct (N.eqb_spec (status response) 401) as [|_]; [done|].
  destruct (negb (ApiService.ok response)).
  - run. destruct (json_body response) as [[]|]; cbv beta iota zeta; eauto.
  - destruct (status response =? 204)%N; [by eexists|].
    destruct (json_body response); by eexists.
Qed.

Lemma getAuthHeaders_spec `{Host} w :
  ∃ hs, ApiService.getAuthHeaders w = (w, Returned hs) ∧
    (∀ v, ("Authorization", v) ∈ hs →
       ∃ t, localStorage w !! "access_token" = Some t ∧ t ≠ "" ∧ v = "Bearer " +:+ t).
Proof.
  unfold ApiService.getAuthHeaders. run. cbv beta iota zeta.
  eexists. split; [reflexivity|].
  intros v [[=]|Hin]%elem_of_cons.
  destruct (localStorage w !! "access_token") as [t|] eqn:Ht;
    [|by apply elem_of_nil in Hin].
  destruct (truthy_item (Some t)) eqn:Htr; [|by apply elem_of_nil in Hin].
  apply list_elem_of_singleton in Hin as [= ->].
  apply truthy_item_Some in Htr as (t' & [= <-] & Hne). eauto.
Qed.

(** Every operation makes one request, which carries an Authorization
    header only when a non-empty [access_token] is stored; then either
    the response is a 401 and the handler has run, or nothing else has
    changed. *)
Lemma perform_cases `{Host} op w :
  ∃ req,
    (∀ v, ("Authorization", v) ∈ headers req →
       ∃ t, localStorage w !! "access_token" = Some t ∧ t ≠ "" ∧ v = "Bearer " +:+ t) ∧
    ((∃ r, ApiService.perform op w = (with_requests (requests w ++ [req]) w, r)) ∨
     ApiService.perform op w
       = (unauthorized (with_requests (requests w ++ [req]) w), Threw session_expired)).
Proof.
  assert (∀ req hs,
    (∀ v, ("Authorization", v) ∈ hs →
       ∃ t, localStorage w !! "access_token" = Some t ∧ t ≠ "" ∧ v = "Bearer " +:+ t) →
    headers req = hs →
    ∃ req',
      (∀ v, ("Authorization", v) ∈ headers req' →
         ∃ t, localStorage w !! "access_token" = Some t ∧ t ≠ "" ∧ v = "Bearer " +:+ t) ∧
      ((∃ r, (ApiService.fetch req ≫= ApiService.handleResponse) w
             = (with_requests (requests w ++ [req']) w, r)) ∨
       (ApiService.fetch req ≫= ApiService.handleResponse) w
         = (unauthorized (with_requests (requests w ++ [req']) w), Threw session_expired)))
    as Hcall.
  { intros req hs Hhs Hreq. exists req. split; [by rewrite Hreq|].
    run. unfold ApiService.fetch.
    destruct (network w (length (requests w))) as [response|e]; [|left; by eexists].
    destruct (decide (status response = 401%N)) as [Hst|Hst].
    - right. by apply handleResponse_401.
    - left. by apply handleResponse_other. }
  destruct (getAuthHeaders_spec w) as (hs & Hget & Hhs).
  assert (∀ v, ("Authorization", v) ∈ [("Content-Type", "application/json")] →
            ∃ t, localStorage w !! "access_token" = Some t ∧ t ≠ "" ∧ v = "Bearer " +:+ t)
    as Hjson.
  { intros v [[=]|Hin]%elem_of_cons. by apply elem_of_nil in Hin. }
  assert (∀ v, ("Authorization", v) ∈ @nil (string * string) →
            ∃ t, localStorage w !! "access_token" = Some t ∧ t ≠ "" ∧ v = "Bearer " +:+ t)
    as Hnone.
  { intros v Hin. by apply elem_of_nil in Hin. }
  destruct op; simpl;
    unfold ApiService.register, ApiService.login, ApiService.getCurrentUser,
      ApiService.getSweets, ApiService.searchSweets, ApiService.createSweet,
      ApiService.updateSweet, ApiService.deleteSweet, ApiService.purchaseSweet,
      ApiService.restockSweet;
    try (eapply Hcall; [exact Hjson|reflexivity]);
    try (eapply Hcall; [exact Hnone|reflexivity]);
    change (mbind ?k ApiService.getAuthHeaders w)
      with (let '(w', o) := ApiService.getAuthHeaders w in
            match o with Returned a => k a w' | Threw e => (w', Threw e) end);
    rewrite Hget; cbv beta iota zeta; (eapply Hcall; [exact Hhs|reflexivity]).
Qed.

Lemma perform_returned `{Host} op w w1 v :
  ApiService.perform op w = (w1, Returned v) →
  ∃ req, w1 = with_requests (requests w ++ [req]) w.
Proof.
  intros Hcall. destruct (perform_cases op w) as (req & _ & [[r Hr]|Hr]);
    rewrite Hr in Hcall; [|discriminate Hcall].
  injection Hcall as <- _. by exists req.
Qed.

(** C2 at a failing input.  After a login through the session store, a
    401 makes the client navigate to the login page and fail with the
    session-expired error, and [isAuthenticated()] is false afterwards;
    but of the persisted session only the user record is removed: the
    credential, stored under "token", is still there. *)
Lemma unauthorized_leaves_token :
  localStorage logged_in_world !! "token" = Some "abc" ∧
  is_Some (localStorage logged_in_world !! "user") ∧
  ∃ w',
    @ApiService.perform example_host ApiService.GetSweets logged_in_world
      = (w', Threw session_expired) ∧
    location_href w' = "/login" ∧
    (ApiService.isAuthenticated w').2 = Returned false ∧
    localStorage w' !! "user" = None ∧
    localStorage w' !! "access_token" = None ∧
    localStorage w' !! "token" = Some "abc".
Proof.
  split; [by vm_compute|]. split; [by vm_compute; eexists|].
  eexists. split; [vm_compute; reflexivity|].
  repeat split; by vm_compute.
Qed.

(** The failure branch of [handleResponse], case by case on the body. *)
Lemma handleResponse_failure `{Host} response w :
  status response ≠ 401%N → ApiService.ok response = false →
  ApiService.handleResponse response w
  = (w, Threw
          match json_body response with
          | Some JNull => mkThrown TypeError (fault_message (ReadOfNull "detail"))
          | Some v =>
              mkThrown Error
                match own_prop v "detail" with
                | Some d =>
                    if truthy d then ToString d
                    else "HTTP error! status: " +:+ pretty (status response)
                | None => "HTTP error! status: " +:+ pretty (status response)
                end
          | None => mkThrown Error ("HTTP error! status: " +:+ pretty (status response))
          end).
Proof.
  intros Hst Hok.
  unfold ApiService.handleResponse, ApiService.json, ApiService.new_Error, read_prop.
  destruct (N.eqb_spec (status response) 401) as [|_]; [done|].
  rewrite Hok. cbn [negb]. run.
  destruct (json_body response) as [v|]; [|reflexivity].
  destruct v; cbv beta iota zeta; try reflexivity;
    destruct (own_prop _ "detail") as [d|]; try reflexivity;
    destruct (truthy d); reflexivity.
Qed.

(** C8, as amended.  For a response whose status is not 401: a 204
    resolves to null; a status outside 200..299 fails with an Error whose
    message is the body's [detail] when the body is JSON (not null) with
    a truthy [detail], and "HTTP error! status: <code>" when the body is
    absent, not JSON, or JSON (not null) without a truthy [detail]; and
    a status in 200..299 other than 204 resolves to the parsed body when
    the body is JSON.  In each case nothing is stored, removed or
    navigated. *)
Theorem handleResponse_not_401 `{Host} response w :
  status response ≠ 401%N →
  (status response = 204%N →
     ApiService.handleResponse response w = (w, Returned JNull)) ∧
  (ApiService.ok response = false →
     (∀ v d, json_body response = Some v → own_prop v "detail" = Some d → truthy d = true →
        ApiService.handleResponse response w = (w, Threw (mkThrown Error (ToString d)))) ∧
     (∀ v s, json_body response = Some v → own_prop v "detail" = Some (JStr s) → s ≠ "" →
        ApiService.handleResponse response w = (w, Threw (mkThrown Error s))) ∧
     (json_body response = None
      ∨ (∃ v, json_body response = Some v ∧ v ≠ JNull ∧
              (own_prop v "detail" = None
               ∨ ∃ d, own_prop v "detail" = Some d ∧ truthy d = false)) →
      ApiService.handleResponse response w
        = (w, Threw (mkThrown Error ("HTTP error! status: " +:+ pretty (status response)))))) ∧
  (ApiService.ok response = true → status response ≠ 204%N →
     ∀ v, json_body response = Some v →
       ApiService.handleResponse response w = (w, Returned v)).
Proof.
  intros Hst. split; [|split].
  - intros H204. unfold ApiService.handleResponse, ApiService.ok. rewrite H204. reflexivity.
  - intros Hok. rewrite (handleResponse_failure response w Hst Hok).
    split; [|split].
    + intros v d -> Hd Htr. destruct v; try discriminate Hd; by rewrite Hd, Htr.
    + intros v s -> Hd Hs. destruct v; try discriminate Hd; rewrite Hd.
      simpl. by destruct (String.eqb_spec s "").
    + intros [->|(v & -> & Hv & Hd)]; [reflexivity|].
      destruct v; try done; destruct Hd as [->|(d & -> & ->)]; reflexivity.
  - intros Hok H204 v Hv. unfold ApiService.handleResponse, ApiService.json.
    destruct (N.eqb_spec (status response) 401) as [|_]; [done|].
    rewrite Hok. cbn [negb].
    destruct (N.eqb_spec (status response) 204) as [|_]; [done|].
    by rewrite Hv.
Qed.

Lemma handleResponse_not_401_witness :
  status not_found_response ≠ 401%N ∧
  ApiService.ok not_found_response = false ∧
  @ApiService.handleResponse example_host not_found_response (fresh expiring_network 0)
    = (fresh expiring_network 0, Threw (mkThrown Error "Sweet not found")).
Proof.
  split; [done|]. split; [reflexivity|].
  pose proof (@handleResponse_not_401 example_host not_found_response
                (fresh expiring_network 0) ltac:(done)) as (_ & Hfailure & _).
  destruct (Hfailure eq_refl) as (_ & Hdetail & _).
  eapply Hdetail; [reflexivity|reflexivity|done].
Defined.

(** C8, as stated, fails: without a body a 404 fails with the message
    "HTTP error! status: 404", which is not the text the claim gives, and
    a 200 whose body is not JSON does not resolve. *)
Lemma handleResponse_counterexample :
  (@ApiService.handleResponse example_host (mkResponse 404 None) (fresh expiring_network 0)).2
    = Threw (mkThrown Error "HTTP error! status: 404") ∧
  "HTTP error! status: 404" ≠ "HTTP error, status=404" ∧
  ∃ e,
    (@ApiService.handleResponse example_host (mkResponse 200 None) (fresh expiring_network 0)).2
      = Threw e.
Proof.
  split; [by vm_compute|]. split; [done|]. eexists. by vm_compute.
Qed.

(** ** The purchase flow *)

(** C1. A purchase attempt whose pending quantity is not positive or
    exceeds the sweet's available quantity makes no network call,
    publishes exactly one toast, of type error and with the message
    "Invalid quantity selected", and leaves the card as it was: in the
    same state of the flow (the quantity selection) and with the same
    pending quantity. *)
Theorem handlePurchase_invalid_quantity `{Host} sweet onUpdate card w :
  (SweetCard.purchaseQuantity card <= 0
   ∨ SweetCard.quantity sweet < SweetCard.purchaseQuantity card)%Q →
  ∃ w' card',
    SweetCard.handlePurchase sweet onUpdate card w = (w', Returned card') ∧
    requests w' = requests w ∧
    published w'
      = published w ++ [mkToast (toastId w + 1) "Invalid quantity selected" error (now w)] ∧
    refreshes w' = refreshes w ∧
    card' = card ∧
    SweetCard.state card' = SweetCard.state card ∧
    SweetCard.purchaseQuantity card' = SweetCard.purchaseQuantity card.
Proof.
  intros Hbad. unfold SweetCard.handlePurchase.
  assert (Qle_bool (SweetCard.purchaseQuantity card) 0
          || negb (Qle_bool (SweetCard.purchaseQuantity card) (SweetCard.quantity sweet))
          = true) as ->.
  { destruct Hbad as [Hle|Hlt].
    - apply Qle_bool_iff in Hle. by rewrite Hle.
    - apply Qle_bool_false in Hlt. rewrite Hlt. apply orb_true_r. }
  destruct (showToast_effect "Invalid quantity selected" error w)
    as (w' & Htoast & Hframe & _ & Hpub).
  exists w', card. unfold ToastBus.showError. run. rewrite Htoast.
  destruct Hframe as (_ & _ & _ & Hreq & _ & _ & _ & _ & _ & Hrefresh).
  by repeat split.
Qed.

(** The scenario of the specification: three of a sweet of which two are
    left. *)
Lemma handlePurchase_invalid_quantity_witness :
  (SweetCard.purchaseQuantity purchase_card <= 0
   ∨ SweetCard.quantity scarce_sweet < SweetCard.purchaseQuantity purchase_card)%Q ∧
  ∃ w' card',
    @SweetCard.handlePurchase example_host scarce_sweet true purchase_card
      invalid_quantity_world = (w', Returned card') ∧
    requests w' = requests invalid_quantity_world ∧
    published w'
      = published invalid_quantity_world
          ++ [mkToast (toastId invalid_quantity_world + 1) "Invalid quantity selected" error
                (now invalid_quantity_world)] ∧
    refreshes w' = refreshes invalid_quantity_world ∧
    card' = purchase_card ∧
    SweetCard.state card' = SweetCard.state purchase_card ∧
    SweetCard.purchaseQuantity card' = SweetCard.purchaseQuantity purchase_card.
Proof.
  split; [right; reflexivity|].
  apply (@handlePurchase_invalid_quantity example_host scarce_sweet true purchase_card
           invalid_quantity_world).
  right. reflexivity.
Defined.

(** C5, as amended.  When the purchase call resolves to a body whose
    [total_cost] is a number below 10^21 in magnitude, the card ends
    idle (selector hidden, not loading) with the pending quantity reset
    to 1; exactly one toast is published, of type success, whose
    message ends with the total cost written with a point and exactly
    two digits after it; and the owner's refresh callback, when one was
    passed, is called once. *)
Theorem handlePurchase_success `{Host} sweet onUpdate card w w1 response x :
  (0 < SweetCard.purchaseQuantity card)%Q →
  (SweetCard.purchaseQuantity card <= SweetCard.quantity sweet)%Q →
  ApiService.purchaseSweet (SweetCard.id sweet)
    (JObj [("quantity", JNum (SweetCard.purchaseQuantity card))]) w = (w1, Returned response) →
  own_prop response "total_cost" = Some (JNum x) →
  (Qabs x < inject_Z (10 ^ 21))%Q →
  ∃ w' card' req a d1 d2,
    SweetCard.handlePurchase sweet onUpdate card w = (w', Returned card') ∧
    SweetCard.state card' = SweetCard.idle ∧
    SweetCard.purchaseQuantity card' = 1%Q ∧
    requests w' = requests w ++ [req] ∧
    published w'
      = published w
          ++ [mkToast (toastId w + 1)
                ("Purchased " +:+ NumberToString (SweetCard.purchaseQuantity card) +:+ " "
                   +:+ SweetCard.name sweet +:+ "(s) for " +:+ toFixed 2 x)
                success (now w)] ∧
    toFixed 2 x
      = (if Qle_bool 0 x then EmptyString else "-")
          +:+ a +:+ "." +:+ String d1 (String d2 EmptyString) ∧
    a ≠ EmptyString ∧ all_digits a = true ∧ is_digit d1 = true ∧ is_digit d2 = true ∧
    refreshes w' = (if onUpdate then S (refreshes w) else refreshes w).
Proof.
  intros Hpos Hle Hcall Hcost Hsmall.
  destruct (toFixed_2_shape x Hsmall) as (a & d1 & d2 & Hshape & Ha & Hda & Hd1 & Hd2).
  destruct (perform_returned (ApiService.PurchaseSweet _ _) w w1 response Hcall)
    as (req & Hw1).
  unfold SweetCard.handlePurchase.
  assert (Qle_bool (SweetCard.purchaseQuantity card) 0
          || negb (Qle_bool (SweetCard.purchaseQuantity card) (SweetCard.quantity sweet))
          = false) as ->.
  { apply orb_false_intro.
    - by apply Qle_bool_false.
    - apply Qle_bool_iff in Hle. by rewrite Hle. }
  set (msg := "Purchased " +:+ _).
  destruct (showToast_effect msg success w1) as (w2 & Htoast & Hframe & _ & Hpub).
  destruct Hframe as (_ & _ & _ & Hreq & _ & _ & _ & _ & _ & Hrefresh).
  unfold SweetCard.total_cost_toFixed, read_prop, ToastBus.showSuccess. run.
  cbn [SweetCard.purchaseQuantity SweetCard.showQuantitySelector SweetCard.isLoading].
  rewrite Hcall.
  destruct response; try discriminate Hcost; cbv beta iota zeta.
  rewrite Hcost. cbv beta iota zeta. fold msg. rewrite Htoast.
  rewrite Hw1 in Hpub, Hreq, Hrefresh. simpl in Hpub, Hreq, Hrefresh.
  destruct onUpdate; cbv beta iota zeta; eexists _, _, req, a, d1, d2;
    repeat split; try done; simpl; congruence.
Qed.

Lemma handlePurchase_success_witness :
  (0 < SweetCard.purchaseQuantity purchase_card)%Q ∧
  (SweetCard.purchaseQuantity purchase_card <= SweetCard.quantity purchase_sweet)%Q ∧
  (∃ w1,
     @ApiService.purchaseSweet example_host (SweetCard.id purchase_sweet)
       (JObj [("quantity", JNum (SweetCard.purchaseQuantity purchase_card))]) purchase_world
     = (w1, Returned (JObj [("total_cost", JNum (15 # 2))]))) ∧
  ∃ w' card' req a d1 d2,
    @SweetCard.handlePurchase example_host purchase_sweet true purchase_card purchase_world
      = (w', Returned card') ∧
    SweetCard.state card' = SweetCard.idle ∧
    SweetCard.purchaseQuantity card' = 1%Q ∧
    requests w' = requests purchase_world ++ [req] ∧
    published w'
      = published purchase_world
          ++ [mkToast (toastId purchase_world + 1) "Purchased 3 Ladoo(s) for 7.50" success
                (now purchase_world)] ∧
    "7.50" = a +:+ "." +:+ String d1 (String d2 EmptyString) ∧
    a ≠ EmptyString ∧ all_digits a = true ∧ is_digit d1 = true ∧ is_digit d2 = true ∧
    refreshes w' = S (refreshes purchase_world).
Proof.
  split; [reflexivity|]. split; [by vm_compute|]. split; [by eexists|].
  eapply (@handlePurchase_success example_host purchase_sweet true purchase_card purchase_world
            _ _ (15 # 2)).
  - reflexivity.
  - by vm_compute.
  - reflexivity.
  - reflexivity.
  - reflexivity.
Defined.

(** C5, as stated, fails: the server answers 204 No Content, the call
    resolves (to null), and the card publishes an error and stays in the
    quantity selection. *)

Lemma handlePurchase_no_content_counterexample :
  ∃ w1 w' t,
    @ApiService.purchaseSweet example_host (SweetCard.id purchase_sweet)
      (JObj [("quantity", JNum (SweetCard.purchaseQuantity purchase_card))]) no_content_world
    = (w1, Returned JNull) ∧
    @SweetCard.handlePurchase example_host purchase_sweet true purchase_card no_content_world
    = (w', Returned purchase_card) ∧
    SweetCard.state purchase_card = SweetCard.selectingQuantity ∧
    SweetCard.purchaseQuantity purchase_card = 3%Q ∧
    published w' = [t] ∧ toast_type t = error ∧
    refreshes w' = 0%nat.
Proof.
  eexists _, _, _.
  split; [vm_compute; reflexivity|].
  split; [vm_compute; reflexivity|].
  split; [reflexivity|]. split; [reflexivity|].
  split; [vm_compute; reflexivity|]. split; reflexivity.
Qed.

(** ** The session store *)

Lemma perform_frame `{Host} op w w1 r :
  ApiService.perform op w = (w1, r) →
  user w1 = user w ∧ loading w1 = loading w ∧ localStorage w1 ⊆ localStorage w.
Proof.
  intros Hcall. destruct (perform_cases op w) as (req & _ & [[r' Hr]|Hr]);
    rewrite Hr in Hcall; injection Hcall as <- <-; simpl; repeat split; try done.
  etrans; apply delete_subseteq.
Qed.

Lemma getErrorMessage_nonempty e : ApiService.getErrorMessage e ≠ "".
Proof.
  unfold ApiService.getErrorMessage.
  by destruct (String.eqb_spec (emessage e) "").
Qed.

(** [login], by the outcome of the client's call. *)
Lemma login_cases `{Host} username password w w1 r :
  ApiService.login username password w = (w1, r) →
  AuthContext.login username password w
  = match r with
    | Threw e => (w1, Returned (AuthContext.mkResult false (Some (ApiService.getErrorMessage e))))
    | Returned JNull =>
        (w1, Returned (AuthContext.mkResult false
                         (Some (ApiService.getErrorMessage
                                  (mkThrown TypeError (fault_message (ReadOfNull "access_token")))))))
    | Returned response =>
        match own_prop response "access_token" with
        | Some tok =>
            if truthy tok then
              (with_localStorage <["token" := ToString tok]>
                 (with_localStorage
                    <["user" := JSON_stringify (AuthContext.userData username tok)]>
                    (with_user (AuthContext.userData username tok) w1)),
               Returned (AuthContext.mkResult true (Some "Login successful")))
            else (w1, Returned (AuthContext.mkResult false (Some "Invalid credentials")))
        | None => (w1, Returned (AuthContext.mkResult false (Some "Invalid credentials")))
        end
    end.
Proof.
  intros Hcall. unfold AuthContext.login, read_prop. run. rewrite Hcall.
  destruct r as [response|e]; [|reflexivity].
  destruct response; cbv beta iota zeta; try reflexivity.
  destruct (own_prop (JObj fields) "access_token") as [tok|]; [|reflexivity].
  destruct (truthy tok); reflexivity.
Qed.

(** C3. [login] follows the outcome of the client's call.  When the
    response carries a truthy [access_token], the user record is the
    object [{ username, token }] made of the given username and that
    token, it becomes the [user] state, its JSON text and the text of
    the token are stored under "user" and "token", the store is
    authenticated and success is reported.  On any other outcome (the
    call threw, or the response has no truthy [access_token]) failure is
    reported with a message and [login] has changed nothing: the world is
    the one the client's call left, with [user] and [loading] as before
    the call and no entry of the storage written. *)
Theorem login_outcome `{Host} username password w w1 r :
  ApiService.login username password w = (w1, r) →
  (∀ response tok,
     r = Returned response → own_prop response "access_token" = Some tok →
     truthy tok = true →
     ∃ w',
       AuthContext.login username password w
         = (w', Returned (AuthContext.mkResult true (Some "Login successful"))) ∧
       user w' = JObj [("username", JStr username); ("token", tok)] ∧
       localStorage w'
         = <["token" := ToString tok]>
             (<["user" := JSON_stringify (JObj [("username", JStr username); ("token", tok)])]>
                (localStorage w)) ∧
       AuthContext.isAuthenticated w' = true ∧
       AuthContext.state w' = AuthContext.authenticated) ∧
  ((∃ e, r = Threw e)
   ∨ (∃ response, r = Returned response ∧
        ∀ tok, own_prop response "access_token" = Some tok → truthy tok = false) →
   ∃ msg,
     AuthContext.login username password w
       = (w1, Returned (AuthContext.mkResult false (Some msg))) ∧
     msg ≠ "" ∧
     user w1 = user w ∧ loading w1 = loading w ∧ localStorage w1 ⊆ localStorage w).
Proof.
  intros Hcall.
  pose proof (perform_frame (ApiService.Login username password) w w1 r Hcall)
    as (Huser & Hloading & Hstore).
  rewrite (login_cases username password w w1 r Hcall). split.
  - intros response tok -> Htok Htruthy.
    destruct (perform_returned (ApiService.Login username password) w w1 response Hcall)
      as (req & ->).
    destruct response; try discriminate Htok.
    rewrite Htok, Htruthy. eexists. split; [reflexivity|].
    unfold AuthContext.isAuthenticated, AuthContext.state. simpl. done.
  - intros [[e ->]|(response & -> & Hfalsy)].
    + eexists. split; [reflexivity|]. split; [apply getErrorMessage_nonempty|done].
    + destruct response;
        try (eexists; split; [reflexivity|]; split; [|done];
             first [apply getErrorMessage_nonempty|done]).
      destruct (own_prop (JObj fields) "access_token") as [tok|] eqn:Htok;
        [rewrite (Hfalsy tok eq_refl)|]; eexists; done.
Qed.

(** The scenario of the specification: the stub answers
    [{ access_token: "abc" }]; the entries stored are the text
    [{"username":"testuser","token":"abc"}] and [abc]. *)
Lemma login_outcome_witness :
  ∃ w1,
    @ApiService.login example_host "testuser" "test123" (fresh expiring_network 0)
      = (w1, Returned (JObj [("access_token", JStr "abc")])) ∧
    @JSON_stringify example_host (JObj [("username", JStr "testuser"); ("token", JStr "abc")])
    = testuser_record_text ∧
    ∃ w',
      @AuthContext.login example_host "testuser" "test123" (fresh expiring_network 0)
        = (w', Returned (AuthContext.mkResult true (Some "Login successful"))) ∧
      user w' = JObj [("username", JStr "testuser"); ("token", JStr "abc")] ∧
      localStorage w'
        = <["token" := "abc"]>
            (<["user" := @JSON_stringify example_host
                           (JObj [("username", JStr "testuser"); ("token", JStr "abc")])]>
               (localStorage (fresh expiring_network 0))) ∧
      AuthContext.isAuthenticated w' = true ∧
      AuthContext.state w' = AuthContext.authenticated.
Proof.
  eexists. split; [reflexivity|]. split; [by vm_compute|].
  destruct (@login_outcome example_host "testuser" "test123" (fresh expiring_network 0)
              _ _ eq_refl) as (Hsuccess & _).
  apply (Hsuccess _ (JStr "abc") eq_refl eq_refl eq_refl).
Defined.

Lemma reachable_step `{Host} w w' : reachable w → rtc step w w' → reachable w'.
Proof. intros (net & t0 & Hrtc) Hmore. exists net, t0. by etrans. Qed.

Lemma no_access_token_client `{Host} w :
  no_access_token w →
  ApiService.getAuthHeaders w = (w, Returned [("Content-Type", "application/json")]) ∧
  ApiService.isAuthenticated w = (w, Returned false) ∧
  ∀ op, ∃ req,
    requests (ApiService.perform op w).1 = requests w ++ [req] ∧
    ∀ v, ("Authorization", v) ∉ headers req.
Proof.
  unfold no_access_token. intros Hno. split; [|split].
  - unfold ApiService.getAuthHeaders. run. cbv beta iota zeta.
    destruct (localStorage w !! "access_token") as [t|]; [|done]. by rewrite Hno.
  - unfold ApiService.isAuthenticated. run. cbv beta iota zeta. by rewrite Hno.
  - intros op. destruct (perform_cases op w) as (req & Hauth & Hcases).
    exists req. split.
    + destruct Hcases as [[r ->]| ->]; done.
    + intros v Hin. destruct (Hauth v Hin) as (t & Ht & Hne & _).
      rewrite Ht in Hno. simpl in Hno. by destruct (String.eqb_spec t "").
Qed.

(** What a successful [login] writes: the user record and the text of
    the token, and nothing else. *)
Lemma login_storage `{Host} username password w w' message :
  AuthContext.login username password w
    = (w', Returned (AuthContext.mkResult true message)) →
  ∃ tok,
    truthy tok = true ∧
    localStorage w'
    = <["token" := ToString tok]>
        (<["user" := JSON_stringify (JObj [("username", JStr username); ("token", tok)])]>
           (localStorage w)).
Proof.
  intros Hlogin.
  destruct (ApiService.login username password w) as [w1 r] eqn:Hcall.
  rewrite (login_cases username password w w1 r Hcall) in Hlogin.
  destruct r as [response|e]; [|discriminate Hlogin].
  destruct (perform_returned (ApiService.Login username password) w w1 response Hcall)
    as (req & ->).
  destruct response; try discriminate Hlogin;
    destruct (own_prop _ "access_token") as [tok|]; try discriminate Hlogin;
    destruct (truthy tok) eqn:Htruthy; try discriminate Hlogin.
  injection Hlogin as <- _. by exists tok.
Qed.

(** C4, as amended.  A successful [login] stores the credential under
    "token" and leaves the entry "access_token" as it was, so the
    client's [isAuthenticated()] and its headers are afterwards what
    they were before the login.  When no non-empty "access_token" was
    stored before the login, as in every state the application reaches
    from an empty storage, then from the login on the client's headers
    are the content type alone, no request of any operation carries an
    Authorization header, and the client's [isAuthenticated()] is false.
    And a 401 after the login removes "user" (and "access_token") only:
    "token", like every other entry, stays as it was. *)
Theorem login_token_unseen_by_client `{Host} username password w w' message :
  AuthContext.login username password w
    = (w', Returned (AuthContext.mkResult true message)) →
  (∃ tok, truthy tok = true ∧ localStorage w' !! "token" = Some (ToString tok)) ∧
  localStorage w' !! "access_token" = localStorage w !! "access_token" ∧
  ApiService.isAuthenticated w'
  = (w', Returned (truthy_item (localStorage w !! "access_token"))) ∧
  ApiService.getAuthHeaders w' = (w', (ApiService.getAuthHeaders w).2) ∧
  (reachable w → no_access_token w) ∧
  (no_access_token w →
   ∀ w2, rtc step w' w2 →
     no_access_token w2 ∧
     ApiService.getAuthHeaders w2 = (w2, Returned [("Content-Type", "application/json")]) ∧
     ApiService.isAuthenticated w2 = (w2, Returned false) ∧
     ∀ op, ∃ req,
       requests (ApiService.perform op w2).1 = requests w2 ++ [req] ∧
       ∀ v, ("Authorization", v) ∉ headers req) ∧
  (∀ response, status response = 401%N →
     ∃ w2,
       ApiService.handleResponse response w' = (w2, Threw session_expired) ∧
       localStorage w2 !! "token" = localStorage w' !! "token" ∧
       localStorage w2 !! "user" = None ∧
       ∀ k, k ≠ "user" → k ≠ "access_token" → localStorage w2 !! k = localStorage w' !! k).
Proof.
  intros Hlogin.
  destruct (login_storage username password w w' message Hlogin) as (tok & Htruthy & Hls).
  assert (localStorage w' !! "access_token" = localStorage w !! "access_token") as Hsame
    by (by rewrite Hls, !lookup_insert_ne).
  split; [|split; [done|split; [|split; [|split; [|split]]]]].
  - exists tok. split; [done|]. by rewrite Hls, lookup_insert_eq.
  - unfold ApiService.isAuthenticated. run. cbv beta iota zeta. by rewrite Hsame.
  - unfold ApiService.getAuthHeaders. run. cbv beta iota zeta. by rewrite Hsame.
  - apply reachable_no_access_token.
  - intros Hno w2 Hlater.
    assert (no_access_token w') as Hno' by (unfold no_access_token; by rewrite Hsame).
    pose proof (rtc_step_no_access_token w' w2 Hlater Hno') as Hno2.
    split; [exact Hno2|]. by apply no_access_token_client.
  - intros response Hst. rewrite (handleResponse_401 response w' Hst).
    eexists. split; [reflexivity|]. simpl. split; [|split].
    + by rewrite !lookup_delete_ne.
    + by rewrite lookup_delete_eq.
    + intros k Hu Ha. by rewrite !lookup_delete_ne.
Qed.

Lemma login_token_unseen_by_client_witness :
  @AuthContext.login example_host "testuser" "test123" (fresh expiring_network 0)
    = (logged_in_world, Returned (AuthContext.mkResult true (Some "Login successful"))) ∧
  no_access_token (fresh expiring_network 0) ∧
  (∃ tok, truthy tok = true ∧
          localStorage logged_in_world !! "token" = Some (@ToString example_host tok)) ∧
  localStorage logged_in_world !! "access_token"
  = localStorage (fresh expiring_network 0) !! "access_token" ∧
  ApiService.isAuthenticated logged_in_world
  = (logged_in_world,
     Returned (truthy_item (localStorage (fresh expiring_network 0) !! "access_token"))) ∧
  ApiService.getAuthHeaders logged_in_world
  = (logged_in_world, (ApiService.getAuthHeaders (fresh expiring_network 0)).2) ∧
  (reachable (H := example_host) (fresh expiring_network 0) →
   no_access_token (fresh expiring_network 0)) ∧
  (no_access_token (fresh expiring_network 0) →
   ∀ w2, rtc (step (H := example_host)) logged_in_world w2 →
     no_access_token w2 ∧
     ApiService.getAuthHeaders w2 = (w2, Returned [("Content-Type", "application/json")]) ∧
     ApiService.isAuthenticated w2 = (w2, Returned false) ∧
     ∀ op, ∃ req,
       requests (@ApiService.perform example_host op w2).1 = requests w2 ++ [req] ∧
       ∀ v, ("Authorization", v) ∉ headers req) ∧
  (∀ response, status response = 401%N →
     ∃ w2,
       @ApiService.handleResponse example_host response logged_in_world
         = (w2, Threw session_expired) ∧
       localStorage w2 !! "token" = localStorage logged_in_world !! "token" ∧
       localStorage w2 !! "user" = None ∧
       ∀ k, k ≠ "user" → k ≠ "access_token" →
         localStorage w2 !! k = localStorage logged_in_world !! k).
Proof.
  split; [reflexivity|]. split; [reflexivity|].
  apply (@login_token_unseen_by_client example_host "testuser" "test123"
           (fresh expiring_network 0) logged_in_world (Some "Login successful")).
  reflexivity.
Defined.

(** C4, as stated, fails: the profile holds an "access_token" before the
    login; the login succeeds and stores its credential under "token",
    and the client's [isAuthenticated()] is true and its headers carry
    the old entry as bearer token. *)
Lemma login_stale_access_token_counterexample :
  ∃ w',
    @AuthContext.login example_host "testuser" "test123" stale_access_world
    = (w', Returned (AuthContext.mkResult true (Some "Login successful"))) ∧
    localStorage w' !! "token" = Some "abc" ∧
    ApiService.isAuthenticated w' = (w', Returned true) ∧
    ApiService.getAuthHeaders w'
    = (w', Returned [("Content-Type", "application/json");
                     ("Authorization", "Bearer stale")]).
Proof.
  eexists. split; [reflexivity|].
  split; [by vm_compute|]. split; by vm_compute.
Qed.

(** ** Rehydration and logout *)

(** What the provider does at process start, by the stored entries. *)
Lemma AuthProvider_cases `{Host} w :
  AuthContext.AuthProvider w
  = match localStorage w !! "user" with
    | Some s =>
        if truthy_item (Some s) && truthy_item (localStorage w !! "token") then
          match JSON_parse s with
          | Some u => (with_loading false (with_user u (AuthContext.initial w)), Returned tt)
          | None =>
              (AuthContext.initial w,
               Threw (mkThrown SyntaxError (fault_message (BadJson s))))
          end
        else (with_loading false (AuthContext.initial w), Returned tt)
    | None => (with_loading false (AuthContext.initial w), Returned tt)
    end.
Proof.
  unfold AuthContext.AuthProvider, AuthContext.loadUser, JSON_parse_or_throw. run.
  cbv beta iota zeta.
  change (localStorage (AuthContext.initial w)) with (localStorage w).
  destruct (localStorage w !! "user") as [s|]; [|reflexivity].
  destruct (truthy_item (Some s) && truthy_item (localStorage w !! "token")); [|reflexivity].
  destruct (JSON_parse s); reflexivity.
Qed.

(** C6, as amended.  Rehydration yields the authenticated state exactly
    when the user entry and the token entry are both present and not
    empty and the user entry is JSON for a truthy value; and whenever
    one of the two entries is absent or empty, it returns and yields the
    anonymous state. *)
Theorem rehydration_authenticated_iff `{Host} w :
  (AuthContext.state (AuthContext.AuthProvider w).1 = AuthContext.authenticated
   ↔ ∃ s t u,
       localStorage w !! "user" = Some s ∧ s ≠ "" ∧
       localStorage w !! "token" = Some t ∧ t ≠ "" ∧
       JSON_parse s = Some u ∧ truthy u = true) ∧
  (truthy_item (localStorage w !! "user") = false
   ∨ truthy_item (localStorage w !! "token") = false →
   (AuthContext.AuthProvider w).2 = Returned tt ∧
   AuthContext.state (AuthContext.AuthProvider w).1 = AuthContext.anonymous).
Proof.
  rewrite AuthProvider_cases. unfold AuthContext.state. split.
  - split.
    + destruct (localStorage w !! "user") as [s|] eqn:Hs; [|done].
      destruct (truthy_item (Some s)) eqn:Hts; [|done].
      destruct (truthy_item (localStorage w !! "token")) eqn:Htt; [|done].
      apply truthy_item_Some in Hts as (s' & [= <-] & Hs').
      apply truthy_item_Some in Htt as (t & Ht & Ht').
      destruct (JSON_parse s) as [u|] eqn:Hu; [|done]. simpl.
      destruct (truthy u) eqn:Htu; [|done]. intros _. by exists s, t, u.
    + intros (s & t & u & -> & Hs & Ht & Ht' & -> & Htu).
      assert (truthy_item (Some s) = true) as -> by (apply truthy_item_Some; eauto).
      assert (truthy_item (localStorage w !! "token") = true) as ->
        by (apply truthy_item_Some; eauto).
      simpl. by rewrite Htu.
  - intros Hpartial.
    destruct (localStorage w !! "user") as [s|]; [|done].
    destruct Hpartial as [->| ->]; [done|]. by rewrite andb_false_r.
Qed.

(** C6, as stated, fails: both entries are present and not empty, and
    rehydration throws instead of yielding the authenticated state. *)
Lemma rehydration_counterexample :
  localStorage corrupt_storage_world !! "user" = Some "not json" ∧
  localStorage corrupt_storage_world !! "token" = Some "abc" ∧
  (∃ e, (@AuthContext.AuthProvider example_host corrupt_storage_world).2 = Threw e) ∧
  AuthContext.state (@AuthContext.AuthProvider example_host corrupt_storage_world).1
    = AuthContext.rehydrating.
Proof.
  split; [by vm_compute|]. split; [by vm_compute|].
  rewrite AuthProvider_cases. split; [eexists|]; by vm_compute.
Qed.

(** C10, as amended.  When the user entry is present, not empty and not
    JSON, [getStoredUser()] throws a SyntaxError, and rehydration throws
    it too when the token entry is present and not empty (otherwise it
    returns, the session anonymous); and both return when the user
    entry, if present, is JSON or empty. *)
Theorem unguarded_parse `{Host} w :
  (∀ s, localStorage w !! "user" = Some s → s ≠ "" → JSON_parse s = None →
     ApiService.getStoredUser w
       = (w, Threw (mkThrown SyntaxError (fault_message (BadJson s)))) ∧
     (truthy_item (localStorage w !! "token") = true →
      AuthContext.AuthProvider w
        = (AuthContext.initial w, Threw (mkThrown SyntaxError (fault_message (BadJson s))))) ∧
     (truthy_item (localStorage w !! "token") = false →
      (AuthContext.AuthProvider w).2 = Returned tt ∧
      AuthContext.state (AuthContext.AuthProvider w).1 = AuthContext.anonymous)) ∧
  ((∀ s, localStorage w !! "user" = Some s → s = "" ∨ is_Some (JSON_parse s)) →
   (∃ u, ApiService.getStoredUser w = (w, Returned u)) ∧
   (AuthContext.AuthProvider w).2 = Returned tt).
Proof.
  split.
  - intros s Hs Hne Hbad.
    assert (truthy_item (Some s) = true) as Hts by (apply truthy_item_Some; eauto).
    split; [|split].
    + unfold ApiService.getStoredUser, JSON_parse_or_throw. run. cbv beta iota zeta.
      by rewrite Hs, Hts, Hbad.
    + intros Htok. by rewrite AuthProvider_cases, Hs, Hts, Htok, Hbad.
    + intros Htok. rewrite AuthProvider_cases, Hs, Hts, Htok. done.
  - intros Hwell. split.
    + unfold ApiService.getStoredUser, JSON_parse_or_throw. run. cbv beta iota zeta.
      destruct (localStorage w !! "user") as [s|] eqn:Hs; [|by eexists].
      destruct (Hwell s eq_refl) as [->|[u Hu]]; [by eexists|].
      rewrite Hu. destruct (truthy_item (Some s)); by eexists.
    + rewrite AuthProvider_cases.
      destruct (localStorage w !! "user") as [s|] eqn:Hs; [|done].
      destruct (Hwell s eq_refl) as [->|[u Hu]]; [done|].
      rewrite Hu. by destruct (_ && _).
Qed.

(** C10, as stated, fails: the user entry is not JSON, and rehydration
    does not throw: without a token it never parses the entry and treats
    the state as no session. *)
Lemma unguarded_parse_counterexample :
  localStorage corrupt_user_world !! "user" = Some "not json" ∧
  JSON_parse "not json" = None ∧
  (@AuthContext.AuthProvider example_host corrupt_user_world).2 = Returned tt ∧
  AuthContext.state (@AuthContext.AuthProvider example_host corrupt_user_world).1
    = AuthContext.anonymous.
Proof.
  split; [by vm_compute|]. split; [by vm_compute|].
  rewrite AuthProvider_cases. split; by vm_compute.
Qed.

Lemma with_user_same w : user w = JNull → with_user JNull w = w.
Proof. destruct w. simpl. by intros ->. Qed.

Lemma with_localStorage_same f w :
  f (localStorage w) = localStorage w → with_localStorage f w = w.
Proof. destruct w. unfold with_localStorage. simpl. by intros ->. Qed.

(** C7, as amended.  [logout] returns, clears the [user] state, removes
    the entries "user" and "token" and publishes one success toast; a
    process that starts on the storage it leaves rehydrates to the
    anonymous state; and the logout is just the publication of that
    toast exactly when there was no user in memory and neither entry was
    stored. *)
Theorem logout_then_rehydrate `{Host} w :
  ∃ w1,
    AuthContext.logout w = (w1, Returned tt) ∧
    user w1 = JNull ∧
    localStorage w1 = delete "token" (delete "user" (localStorage w)) ∧
    published w1
      = published w ++ [mkToast (toastId w + 1) "Logged out successfully" success (now w)] ∧
    (∀ w2, localStorage w2 = localStorage w1 →
       (AuthContext.AuthProvider w2).2 = Returned tt ∧
       AuthContext.state (AuthContext.AuthProvider w2).1 = AuthContext.anonymous) ∧
    (w1 = (ToastBus.showSuccess "Logged out successfully" w).1
     ↔ user w = JNull ∧ localStorage w !! "user" = None ∧ localStorage w !! "token" = None).
Proof.
  unfold AuthContext.logout, ToastBus.showSuccess. run. cbv beta iota zeta.
  set (w0 := with_localStorage (delete "token")
               (with_localStorage (delete "user") (with_user JNull w))).
  destruct (showToast_effect "Logged out successfully" success w0)
    as (w1 & Htoast & Hframe & _ & Hpub).
  rewrite Htoast. exists w1. split; [reflexivity|].
  destruct Hframe as (Hst & _ & _ & _ & _ & _ & _ & Huser & _).
  split; [by rewrite Huser|]. split; [by rewrite Hst|]. split; [exact Hpub|]. split.
  - intros w2 Hw2.
    rewrite AuthProvider_cases, Hw2, Hst. simpl.
    by rewrite lookup_delete_ne, lookup_delete_eq.
  - split.
    + intros Heq.
      destruct (showToast_effect "Logged out successfully" success w)
        as (w1' & Htoast' & Hframe' & _).
      rewrite Htoast' in Heq. cbn [fst] in Heq. subst w1'.
      destruct Hframe' as (Hst' & _ & _ & _ & _ & _ & _ & Huser' & _).
      rewrite Hst in Hst'. rewrite Huser in Huser'. simpl in Hst', Huser'.
      split; [done|]. split.
      * rewrite <- Hst'. by rewrite lookup_delete_ne, lookup_delete_eq.
      * rewrite <- Hst'. by rewrite lookup_delete_eq.
    + intros (Hu & Hsu & Hst').
      assert (w0 = w) as Hw0.
      { subst w0. rewrite (with_user_same w Hu).
        rewrite (with_localStorage_same (delete "user") w) by by apply delete_id.
        by apply with_localStorage_same, delete_id. }
      rewrite Hw0 in *. by rewrite Htoast.
Qed.

(** C7, as stated, fails.  After a login, a 401 and a new mount of the
    provider, the session is anonymous with no user in memory, and the
    entry "token" is still stored; [logout] then removes it, which the
    publication of the toast alone does not. *)
Lemma logout_stale_token_counterexample :
  reachable (H := example_host) stale_token_world ∧
  AuthContext.state stale_token_world = AuthContext.anonymous ∧
  user stale_token_world = JNull ∧
  localStorage stale_token_world !! "user" = None ∧
  localStorage stale_token_world !! "token" = Some "abc" ∧
  localStorage (@AuthContext.logout stale_token_world).1 !! "token" = None ∧
  localStorage (ToastBus.showSuccess "Logged out successfully" stale_token_world).1 !! "token"
  = Some "abc".
Proof.
  split.
  { exists expiring_network, 0%N. unfold stale_token_world, logged_in_world.
    eapply rtc_l; [exact (step_login "testuser" "test123" _)|].
    eapply rtc_l; [exact (step_api ApiService.GetSweets _)|].
    apply rtc_once. exact (step_provider _). }
  split; [by vm_compute|]. split; [by vm_compute|]. split; [by vm_compute|].
  split; [by vm_compute|]. split; by vm_compute.
Qed.

(** ** The lifetime of a toast *)






(** ** What [login] stores, [JSON.parse] reads back *)

(** The lexer reads what [QuoteJSONString] writes for a character as
    that character. *)
Lemma lex_quote_char c acc rest :
  lex (LStr acc) (quote_char c +:+ rest) = lex (LStr (c :: acc)) rest.
Proof.
  destruct c as [[] [] [] [] [] [] [] []];
    match goal with |- context [quote_char ?c] =>
      let q := eval vm_compute in (quote_char c) in change (quote_char c) with q end;
    rewrite ?append_cons, append_nil; repeat lex_char; destruct (lex _ rest); reflexivity.
Qed.

Lemma append_assoc (s1 s2 s3 : string) : (s1 +:+ s2) +:+ s3 = s1 +:+ (s2 +:+ s3).
Proof.
  induction s1 as [|c s1 IH]; [done|]. rewrite !append_cons. by rewrite IH.
Qed.

(** The body of a quoted string and its closing quote lex to the string
    itself. *)
Lemma lex_quote_body s acc rest :
  lex (LStr acc) (quote_body s +:+ String dquote rest)
  = cons (TStr (string_of_rev (rev (String.list_ascii_of_string s) ++ acc)))
      <$> lex LDefault rest.
Proof.
  revert acc. induction s as [|c s IH]; intros acc.
  - cbn [quote_body]. rewrite append_nil. cbn [lex].
    replace (lex_step (LStr acc) dquote)
      with (Some (LDefault, [TStr (string_of_rev acc)])) by reflexivity.
    destruct (lex LDefault rest); reflexivity.
  - cbn [quote_body]. rewrite append_assoc, lex_quote_char, IH.
    cbn [String.list_ascii_of_string rev]. by rewrite <- app_assoc.
Qed.

Lemma string_of_rev_rev s : string_of_rev (rev (String.list_ascii_of_string s) ++ []) = s.
Proof.
  unfold string_of_rev. rewrite app_nil_r, rev_involutive.
  apply String.string_of_list_ascii_of_string.
Qed.

(** A quoted string followed by one more character. *)
Lemma lex_QuoteJSONString s rest :
  lex LDefault (QuoteJSONString s +:+ rest) = cons (TStr s) <$> lex LDefault rest.
Proof.
  unfold QuoteJSONString. rewrite append_cons, append_assoc, append_cons, append_nil.
  cbn [lex lex_step lex_default].
  replace (lex_default dquote) with (Some (LStr [], @nil Token)) by reflexivity.
  rewrite lex_quote_body, string_of_rev_rev.
  destruct (lex LDefault rest); reflexivity.
Qed.

Lemma JSON_parse_userData `{Host} username token :
  JSON_parse (JSON_stringify (AuthContext.userData username (JStr token)))
  = Some (AuthContext.userData username (JStr token)).
Proof.
  unfold JSON_parse, AuthContext.userData.
  cbn [JSON_stringify map join fst snd].
  rewrite !append_assoc, ?append_cons, ?append_nil.
  lex_char. rewrite lex_QuoteJSONString.
  lex_char. rewrite lex_QuoteJSONString.
  lex_char. rewrite lex_QuoteJSONString.
  lex_char. rewrite lex_QuoteJSONString.
  reflexivity.
Qed.

(** A session established by [login] with a string token is restored by
    the provider when the process starts again on the same storage. *)
Lemma login_then_rehydrate `{Host} username password w w' token w2 :
  ApiService.login username password w
    = (w', Returned (JObj [("access_token", JStr token)])) →
  token ≠ "" →
  localStorage w2 = localStorage (AuthContext.login username password w).1 →
  AuthContext.AuthProvider w2
    = (with_loading false
         (with_user (AuthContext.userData username (JStr token)) (AuthContext.initial w2)),
       Returned tt) ∧
  AuthContext.state (AuthContext.AuthProvider w2).1 = AuthContext.authenticated.
Proof.
  intros Hcall Hne Hw2.
  rewrite (login_cases username password w w' _ Hcall) in Hw2.
  assert (truthy (JStr token) = true) as Htruthy.
  { simpl. by destruct (String.eqb_spec token ""). }
  cbn [own_prop assoc_last] in Hw2.
  replace (String.eqb "access_token" "access_token") with true in Hw2 by reflexivity.
  rewrite Htruthy in Hw2. cbn [fst] in Hw2.
  change (localStorage w2
          = <["token" := token]>
              (<["user" := JSON_stringify (AuthContext.userData username (JStr token))]>
                 (localStorage w'))) in Hw2.
  assert (AuthContext.AuthProvider w2
          = (with_loading false
               (with_user (AuthContext.userData username (JStr token))
                  (AuthContext.initial w2)), Returned tt)) as Hprovider.
  { rewrite AuthProvider_cases, Hw2.
    rewrite lookup_insert_ne, lookup_insert_eq by done.
    rewrite lookup_insert_eq.
    assert (truthy_item (Some (JSON_stringify (AuthContext.userData username (JStr token))))
            = true) as ->.
    { apply truthy_item_Some. eexists. split; [done|]. by cbn. }
    assert (truthy_item (Some token) = true) as ->
      by (apply truthy_item_Some; eauto).
    cbn [andb]. by rewrite JSON_parse_userData. }
  split; [exact Hprovider|]. by rewrite Hprovider.
Qed.

(** * Further properties *)

(** ** The purchase flow, in every case *)

Lemma guard_true sweet card :
  (SweetCard.purchaseQuantity card <= 0
   ∨ SweetCard.quantity sweet < SweetCard.purchaseQuantity card)%Q →
  Qle_bool (SweetCard.purchaseQuantity card) 0
  || negb (Qle_bool (SweetCard.purchaseQuantity card) (SweetCard.quantity sweet)) = true.
Proof.
  intros [Hle|Hlt].
  - apply Qle_bool_iff in Hle. by rewrite Hle.
  - apply Qle_bool_false in Hlt. rewrite Hlt. apply orb_true_r.
Qed.

Lemma guard_false sweet card :
  (0 < SweetCard.purchaseQuantity card)%Q →
  (SweetCard.purchaseQuantity card <= SweetCard.quantity sweet)%Q →
  Qle_bool (SweetCard.purchaseQuantity card) 0
  || negb (Qle_bool (SweetCard.purchaseQuantity card) (SweetCard.quantity sweet)) = false.
Proof.
  intros Hpos Hle. apply orb_false_intro.
  - by apply Qle_bool_false.
  - apply Qle_bool_iff in Hle. by rewrite Hle.
Qed.

Lemma guard_cases sweet card :
  (SweetCard.purchaseQuantity card <= 0
   ∨ SweetCard.quantity sweet < SweetCard.purchaseQuantity card)%Q
  ∨ (0 < SweetCard.purchaseQuantity card
     ∧ SweetCard.purchaseQuantity card <= SweetCard.quantity sweet)%Q.
Proof.
  destruct (Qlt_le_dec 0 (SweetCard.purchaseQuantity card)) as [Hpos|Hle]; [|by left; left].
  destruct (Qlt_le_dec (SweetCard.quantity sweet) (SweetCard.purchaseQuantity card))
    as [Hlt|Hle]; [by left; right|by right].
Qed.

(** [response.total_cost.toFixed(2)] either gives the text or throws; it
    touches nothing. *)
Lemma total_cost_toFixed_pure `{Host} response :
  ∃ o, ∀ w, SweetCard.total_cost_toFixed response w = (w, o).
Proof.
  unfold SweetCard.total_cost_toFixed, read_prop. run.
  destruct response; try (eexists; intros w; reflexivity);
    destruct (own_prop _ "total_cost") as [[]|]; eexists; intros w; reflexivity.
Qed.

(** [handlePurchase] past the guard, by the outcome of the call and of
    the rendering of the cost. *)
Lemma handlePurchase_cases `{Host} sweet onUpdate card w w1 r :
  (0 < SweetCard.purchaseQuantity card)%Q →
  (SweetCard.purchaseQuantity card <= SweetCard.quantity sweet)%Q →
  ApiService.purchaseSweet (SweetCard.id sweet)
    (JObj [("quantity", JNum (SweetCard.purchaseQuantity card))]) w = (w1, r) →
  SweetCard.handlePurchase sweet onUpdate card w
  = match r with
    | Threw e =>
        ((ToastBus.showError (ApiService.getErrorMessage e) w1).1,
         Returned (SweetCard.mkCard false (SweetCard.purchaseQuantity card)
                     (SweetCard.showQuantitySelector card)))
    | Returned response =>
        match (SweetCard.total_cost_toFixed response w1).2 with
        | Threw e =>
            ((ToastBus.showError (ApiService.getErrorMessage e) w1).1,
             Returned (SweetCard.mkCard false (SweetCard.purchaseQuantity card)
                         (SweetCard.showQuantitySelector card)))
        | Returned cost =>
            let w2 :=
              (ToastBus.showSuccess
                 ("Purchased " +:+ NumberToString (SweetCard.purchaseQuantity card) +:+ " "
                    +:+ SweetCard.name sweet +:+ "(s) for " +:+ cost) w1).1 in
            (if onUpdate then with_refreshes (S (refreshes w2)) w2 else w2,
             Returned (SweetCard.mkCard false 1 false))
        end
    end.
Proof.
  intros Hpos Hle Hcall. unfold SweetCard.handlePurchase.
  rewrite (guard_false sweet card Hpos Hle).
  destruct (total_cost_toFixed_pure match r with Returned v => v | Threw _ => JNull end)
    as (o & Hcost).
  unfold ToastBus.showSuccess, ToastBus.showError in *. run.
  cbn [SweetCard.purchaseQuantity SweetCard.showQuantitySelector SweetCard.isLoading].
  rewrite Hcall. destruct r as [response|e]; cbv beta iota zeta.
  - rewrite Hcost. cbn [snd]. destruct o as [cost|e]; cbv beta iota zeta.
    + destruct (ToastBus.showToast _ success w1) as [w2 [id|e']] eqn:Htoast;
        [|by destruct (showToast_effect
                         ("Purchased " +:+ NumberToString (SweetCard.purchaseQuantity card)
                            +:+ " " +:+ SweetCard.name sweet +:+ "(s) for " +:+ cost)
                         success w1) as (? & ? & _); congruence].
      cbn [fst]. destruct onUpdate; reflexivity.
    + destruct (showToast_effect (ApiService.getErrorMessage e) error w1) as (w2 & -> & _).
      reflexivity.
  - destruct (showToast_effect (ApiService.getErrorMessage e) error w1) as (w2 & -> & _).
    reflexivity.
Qed.

(** What a call of the client leaves alone: it adds one request, and
    touches neither the toast bus nor the refresh counter. *)
Lemma perform_world `{Host} op w w1 r :
  ApiService.perform op w = (w1, r) →
  (∃ req, requests w1 = requests w ++ [req]) ∧
  published w1 = published w ∧ toastId w1 = toastId w ∧ now w1 = now w ∧
  refreshes w1 = refreshes w ∧ toasts w1 = toasts w ∧
  toastListeners w1 = toastListeners w ∧ timers w1 = timers w ∧
  network w1 = network w ∧ instances w1 = instances w.
Proof.
  intros Hcall. destruct (perform_cases op w) as (req & _ & [[r' Hr]|Hr]);
    rewrite Hr in Hcall; injection Hcall as <- <-; simpl; repeat split; by eauto.
Qed.

(** X1.  A purchase whose call fails (the fetch rejects, the server
    answers 401 or any other non-OK status) publishes exactly one toast,
    of type error, carrying the message of the error; the card is no
    longer loading and keeps the pending quantity and the selector as
    they were, so the user can retry; the refresh callback is not
    called. *)
Theorem handlePurchase_failure `{Host} sweet onUpdate card w w1 e :
  (0 < SweetCard.purchaseQuantity card)%Q →
  (SweetCard.purchaseQuantity card <= SweetCard.quantity sweet)%Q →
  ApiService.purchaseSweet (SweetCard.id sweet)
    (JObj [("quantity", JNum (SweetCard.purchaseQuantity card))]) w = (w1, Threw e) →
  ∃ w' req,
    SweetCard.handlePurchase sweet onUpdate card w
    = (w', Returned (SweetCard.mkCard false (SweetCard.purchaseQuantity card)
                       (SweetCard.showQuantitySelector card))) ∧
    requests w' = requests w ++ [req] ∧
    published w'
    = published w ++ [mkToast (toastId w + 1) (ApiService.getErrorMessage e) error (now w)] ∧
    refreshes w' = refreshes w ∧
    localStorage w' = localStorage w1 ∧ location_href w' = location_href w1.
Proof.
  intros Hpos Hle Hcall.
  rewrite (handlePurchase_cases sweet onUpdate card w w1 _ Hpos Hle Hcall).
  destruct (perform_world (ApiService.PurchaseSweet _ _) w w1 _ Hcall)
    as ((req & Hreq) & Hpub & Hid & Hnow & Href & _).
  unfold ToastBus.showError.
  destruct (showToast_effect (ApiService.getErrorMessage e) error w1)
    as (w2 & -> & Hframe & _ & Hpub2).
  destruct Hframe as (Hls & Hloc & _ & Hreq2 & _ & _ & _ & _ & _ & Href2).
  exists w2, req. cbn [fst]. repeat split; try congruence.
Qed.

Lemma handlePurchase_failure_witness :
  (0 < SweetCard.purchaseQuantity purchase_card)%Q ∧
  (SweetCard.purchaseQuantity purchase_card <= SweetCard.quantity purchase_sweet)%Q ∧
  (∃ w1,
     @ApiService.purchaseSweet example_host (SweetCard.id purchase_sweet)
       (JObj [("quantity", JNum (SweetCard.purchaseQuantity purchase_card))])
       (fresh offline_network 0)
     = (w1, Threw (mkThrown TypeError "Failed to fetch"))) ∧
  ∃ w' req,
    @SweetCard.handlePurchase example_host purchase_sweet true purchase_card
      (fresh offline_network 0)
    = (w', Returned (SweetCard.mkCard false (SweetCard.purchaseQuantity purchase_card)
                       (SweetCard.showQuantitySelector purchase_card))) ∧
    requests w' = requests (fresh offline_network 0) ++ [req] ∧
    published w'
    = published (fresh offline_network 0)
        ++ [mkToast (toastId (fresh offline_network 0) + 1)
              (ApiService.getErrorMessage (mkThrown TypeError "Failed to fetch")) error
              (now (fresh offline_network 0))] ∧
    refreshes w' = refreshes (fresh offline_network 0) ∧
    localStorage w' = ∅ ∧ location_href w' = "/".
Proof.
  split; [reflexivity|]. split; [by vm_compute|]. split; [by eexists|].
  eapply (@handlePurchase_failure example_host purchase_sweet true purchase_card
            (fresh offline_network 0)
            (@ApiService.purchaseSweet example_host (SweetCard.id purchase_sweet)
               (JObj [("quantity", JNum (SweetCard.purchaseQuantity purchase_card))])
               (fresh offline_network 0)).1
            (mkThrown TypeError "Failed to fetch")).
  - reflexivity.
  - by vm_compute.
  - reflexivity.
Defined.

(** X2.  [handlePurchase] never throws, whatever the card, the sweet and
    the server do.  A card that was not loading ends not loading; exactly
    one toast is published, of type success or error; at most one
    request is sent; and the session is left alone.  The refresh callback is called only together with a
    success toast and the reset of the form; after an error toast the
    pending quantity and the selector are as before. *)
Theorem handlePurchase_always `{Host} sweet onUpdate card w :
  ∃ w' card' t,
    SweetCard.handlePurchase sweet onUpdate card w = (w', Returned card') ∧
    (SweetCard.isLoading card = false → SweetCard.isLoading card' = false) ∧
    published w' = published w ++ [t] ∧ toast_id t = (toastId w + 1)%N ∧
    toast_type t ≠ info ∧
    (requests w' = requests w ∨ ∃ req, requests w' = requests w ++ [req]) ∧
    user w' = user w ∧ loading w' = loading w ∧
    (toast_type t = success →
       card' = SweetCard.mkCard false 1 false ∧
       refreshes w' = (if onUpdate then S (refreshes w) else refreshes w)) ∧
    (toast_type t = error →
       SweetCard.purchaseQuantity card' = SweetCard.purchaseQuantity card ∧
       SweetCard.showQuantitySelector card' = SweetCard.showQuantitySelector card ∧
       refreshes w' = refreshes w).
Proof.
  destruct (guard_cases sweet card) as [Hbad|[Hpos Hle]].
  - unfold SweetCard.handlePurchase. rewrite (guard_true sweet card Hbad).
    unfold ToastBus.showError. run.
    destruct (showToast_effect "Invalid quantity selected" error w)
      as (w2 & -> & Hframe & _ & Hpub).
    destruct Hframe as (_ & _ & _ & Hreq & _ & _ & _ & Huser & Hload & Href).
    eexists w2, card, _. split; [reflexivity|]. split; [done|].
    split; [exact Hpub|]. repeat split; try done; auto.
  - destruct (ApiService.purchaseSweet (SweetCard.id sweet)
                (JObj [("quantity", JNum (SweetCard.purchaseQuantity card))]) w)
      as [w1 r] eqn:Hcall.
    rewrite (handlePurchase_cases sweet onUpdate card w w1 _ Hpos Hle Hcall).
    destruct (perform_world (ApiService.PurchaseSweet _ _) w w1 _ Hcall)
      as ((req & Hreq) & Hpub & Hid & Hnow & Href & _).
    destruct (perform_frame (ApiService.PurchaseSweet _ _) w w1 _ Hcall)
      as (Huser & Hload & _).
    assert (∀ e, ∃ w' card' t,
      ((ToastBus.showError (ApiService.getErrorMessage e) w1).1,
       Returned (SweetCard.mkCard false (SweetCard.purchaseQuantity card)
                   (SweetCard.showQuantitySelector card)))
      = (w', @Returned SweetCard.Card card') ∧
      (SweetCard.isLoading card = false → SweetCard.isLoading card' = false) ∧
      published w' = published w ++ [t] ∧ toast_id t = (toastId w + 1)%N ∧
      toast_type t ≠ info ∧
      (requests w' = requests w ∨ ∃ req, requests w' = requests w ++ [req]) ∧
      user w' = user w ∧ loading w' = loading w ∧
      (toast_type t = success →
         card' = SweetCard.mkCard false 1 false ∧
         refreshes w' = (if onUpdate then S (refreshes w) else refreshes w)) ∧
      (toast_type t = error →
         SweetCard.purchaseQuantity card' = SweetCard.purchaseQuantity card ∧
         SweetCard.showQuantitySelector card' = SweetCard.showQuantitySelector card ∧
         refreshes w' = refreshes w)) as Herror.
    { intros e. unfold ToastBus.showError.
      destruct (showToast_effect (ApiService.getErrorMessage e) error w1)
        as (w2 & -> & Hframe & _ & Hpub2).
      destruct Hframe as (_ & _ & _ & Hreq2 & _ & _ & _ & Huser2 & Hload2 & Href2).
      eexists w2, _, _. split; [reflexivity|]. split; [done|].
      split; [rewrite Hpub2, Hpub, Hid, Hnow; reflexivity|].
      cbn [toast_id toast_type]. repeat split; try done; try congruence.
      right. exists req. congruence. }
    destruct r as [response|e]; [|apply Herror].
    destruct (SweetCard.total_cost_toFixed response w1).2 as [cost|e]; [|apply Herror].
    unfold ToastBus.showSuccess. cbv zeta.
    match goal with |- context [ToastBus.showToast ?m success w1] =>
      destruct (showToast_effect m success w1) as (w2 & -> & Hframe & _ & Hpub2) end.
    destruct Hframe as (_ & _ & _ & Hreq2 & _ & _ & _ & Huser2 & Hload2 & Href2).
    cbn [fst]. eexists _, _, _. split; [reflexivity|]. split; [done|].
    split; [destruct onUpdate; simpl; rewrite Hpub2, Hpub, Hid, Hnow; reflexivity|].
    cbn [toast_id toast_type].
    repeat split; try done;
      first [ by destruct onUpdate; simpl; congruence
            | right; exists req; destruct onUpdate; simpl; congruence ].
Qed.

(** X3.  A card whose sweet has no stock left (quantity zero or below)
    cannot reach the server: whatever quantity is pending, the purchase
    is rejected with the invalid-quantity toast, no request is sent and
    the card is unchanged. *)
Theorem handlePurchase_out_of_stock `{Host} sweet onUpdate card w :
  (SweetCard.quantity sweet <= 0)%Q →
  ∃ w',
    SweetCard.handlePurchase sweet onUpdate card w = (w', Returned card) ∧
    requests w' = requests w ∧ refreshes w' = refreshes w ∧
    localStorage w' = localStorage w ∧
    published w'
    = published w ++ [mkToast (toastId w + 1) "Invalid quantity selected" error (now w)].
Proof.
  intros Hout. unfold SweetCard.handlePurchase.
  rewrite (guard_true sweet card).
  - unfold ToastBus.showError. run.
    destruct (showToast_effect "Invalid quantity selected" error w)
      as (w2 & -> & Hframe & _ & Hpub).
    destruct Hframe as (Hls & _ & _ & Hreq & _ & _ & _ & _ & _ & Href).
    by exists w2.
  - destruct (Qlt_le_dec 0 (SweetCard.purchaseQuantity card)) as [Hpos|Hle]; [|by left].
    right. eapply Qle_lt_trans; [exact Hout|exact Hpos].
Qed.

Lemma handlePurchase_out_of_stock_witness :
  (SweetCard.quantity (SweetCard.mkSweet 7 "Barfi" "Indian" 4 0) <= 0)%Q ∧
  ∃ w',
    @SweetCard.handlePurchase example_host (SweetCard.mkSweet 7 "Barfi" "Indian" 4 0)
      true purchase_card purchase_world
    = (w', Returned purchase_card) ∧
    requests w' = requests purchase_world ∧ refreshes w' = refreshes purchase_world ∧
    localStorage w' = localStorage purchase_world ∧
    published w'
    = published purchase_world
        ++ [mkToast (toastId purchase_world + 1) "Invalid quantity selected" error
              (now purchase_world)].
Proof.
  split; [by vm_compute|].
  apply (@handlePurchase_out_of_stock example_host (SweetCard.mkSweet 7 "Barfi" "Indian" 4 0)
           true purchase_card purchase_world).
  by vm_compute.
Defined.

(** ** The session store: registration, the admin flag, remounting *)

(** A call of the client never touches the entry "token". *)
Lemma perform_token `{Host} op w :
  localStorage (ApiService.perform op w).1 !! "token" = localStorage w !! "token".
Proof.
  destruct (perform_cases op w) as (req & _ & [[r ->]| ->]); simpl; [done|].
  by rewrite !lookup_delete_ne.
Qed.

(** X4.  [register] never authenticates and never throws.  It reports
    success exactly when the client's call returned, publishes exactly
    one toast (success, with the invitation to log in, or error), sends
    one request, and leaves the [user] state, the [loading] flag and the
    stored "token" as they were; it writes no entry of the storage. *)
Theorem register_never_authenticates `{Host} data w :
  ∃ w' ok t req,
    AuthContext.register data w = (w', Returned (AuthContext.mkResult ok None)) ∧
    (ok = true ↔ ∃ w1 v, ApiService.register data w = (w1, Returned v)) ∧
    user w' = user w ∧ loading w' = loading w ∧
    AuthContext.state w' = AuthContext.state w ∧
    localStorage w' ⊆ localStorage w ∧
    localStorage w' !! "token" = localStorage w !! "token" ∧
    requests w' = requests w ++ [req] ∧
    published w' = published w ++ [t] ∧
    toast_id t = (toastId w + 1)%N ∧
    toast_type t = (if ok then success else error) ∧
    (ok = true →
       toast_message t = "Registration successful! Please log in." ∧
       localStorage w' = localStorage w ∧ location_href w' = location_href w).
Proof.
  destruct (ApiService.register data w) as [w1 r] eqn:Hcall.
  destruct (perform_world (ApiService.Register data) w w1 r Hcall)
    as ((req & Hreq) & Hpub & Hid & Hnow & _).
  destruct (perform_frame (ApiService.Register data) w w1 r Hcall) as (Huser & Hload & Hsub).
  pose proof (perform_token (ApiService.Register data) w) as Htok.
  simpl in Htok. rewrite Hcall in Htok. simpl in Htok.
  unfold AuthContext.register, ToastBus.showSuccess, ToastBus.showError. run.
  rewrite Hcall.
  destruct r as [v|e]; cbv beta iota zeta.
  - destruct (perform_returned (ApiService.Register data) w w1 v Hcall) as (req' & Hw1).
    destruct (showToast_effect "Registration successful! Please log in." success w1)
      as (w2 & -> & Hframe & _ & Hpub2).
    destruct Hframe as (Hls & Hloc & _ & Hreq2 & _ & _ & _ & Huser2 & Hload2 & _).
    exists w2, true, (mkToast (toastId w + 1) "Registration successful! Please log in."
                        success (now w)), req.
    split; [reflexivity|]. split; [split; [eauto|done]|].
    unfold AuthContext.state. rewrite Huser2, Hload2, Huser, Hload, Hls, Hreq2, Hpub2.
    rewrite Hpub, Hid, Hnow. repeat split; try done.
    + by rewrite Hw1.
    + by rewrite Hloc, Hw1.
  - destruct (showToast_effect (ApiService.getErrorMessage e) error w1)
      as (w2 & -> & Hframe & _ & Hpub2).
    destruct Hframe as (Hls & Hloc & _ & Hreq2 & _ & _ & _ & Huser2 & Hload2 & _).
    exists w2, false, (mkToast (toastId w + 1) (ApiService.getErrorMessage e) error (now w)),
      req.
    split; [reflexivity|]. split; [split; [done|by intros (? & ? & [=])]|].
    unfold AuthContext.state. rewrite Huser2, Hload2, Huser, Hload, Hls, Hreq2, Hpub2.
    rewrite Hpub, Hid, Hnow. repeat split; done.
Qed.

(** X5.  After a login that reports success the store is authenticated,
    and the admin flag of the context is decided by the username that
    was typed alone, whatever the server sent: it is set exactly when
    that username is "admin". *)
Theorem login_isAdmin `{Host} username password w w' result :
  AuthContext.login username password w = (w', Returned result) →
  AuthContext.succeeded result = true →
  AuthContext.isAuthenticated w' = true ∧
  AuthContext.isAdmin w' = String.eqb username "admin" ∧
  own_prop (user w') "username" = Some (JStr username).
Proof.
  intros Hlogin Hok.
  destruct (ApiService.login username password w) as [w1 r] eqn:Hcall.
  rewrite (login_cases username password w w1 r Hcall) in Hlogin.
  destruct r as [response|e]; [|by injection Hlogin as <- <-].
  destruct response; try by injection Hlogin as <- <-.
  destruct (own_prop (JObj fields) "access_token") as [tok|];
    [|by injection Hlogin as <- <-].
  destruct (truthy tok) eqn:Htruthy; [|by injection Hlogin as <- <-].
  injection Hlogin as <- <-.
  unfold AuthContext.isAuthenticated, AuthContext.isAdmin. simpl. done.
Qed.

Lemma login_isAdmin_witness :
  (∃ w',
     @AuthContext.login example_host "admin" "admin123" (fresh expiring_network 0)
     = (w', Returned (AuthContext.mkResult true (Some "Login successful"))) ∧
     AuthContext.isAuthenticated w' = true ∧
     AuthContext.isAdmin w' = String.eqb "admin" "admin" ∧
     own_prop (user w') "username" = Some (JStr "admin")).
Proof.
  eexists. split; [reflexivity|].
  apply (@login_isAdmin example_host "admin" "admin123" (fresh expiring_network 0) _
           (AuthContext.mkResult true (Some "Login successful"))); reflexivity.
Defined.

(** X6.  Mounting the provider is local and idempotent: it sends no
    request, publishes no toast, leaves the storage and the location
    alone, and a provider mounted again on the state the first one left
    ends in that same state with that same outcome. *)
Theorem AuthProvider_idempotent `{Host} w :
  requests (AuthContext.AuthProvider w).1 = requests w ∧
  published (AuthContext.AuthProvider w).1 = published w ∧
  localStorage (AuthContext.AuthProvider w).1 = localStorage w ∧
  location_href (AuthContext.AuthProvider w).1 = location_href w ∧
  toasts (AuthContext.AuthProvider w).1 = toasts w ∧
  AuthContext.AuthProvider (AuthContext.AuthProvider w).1 = AuthContext.AuthProvider w.
Proof.
  rewrite (AuthProvider_cases w).
  destruct (localStorage w !! "user") as [s|] eqn:Hs.
  - destruct (truthy_item (Some s) && truthy_item (localStorage w !! "token")) eqn:Hboth.
    + destruct (JSON_parse s) as [u|] eqn:Hparse; cbn [fst];
        (repeat split; [done..|]);
        match goal with |- AuthContext.AuthProvider ?w1 = _ =>
          rewrite (AuthProvider_cases w1);
          change (localStorage w1) with (localStorage w) end;
        rewrite Hs, Hboth, Hparse; destruct w; reflexivity.
    + cbn [fst]. (repeat split; [done..|]).
      match goal with |- AuthContext.AuthProvider ?w1 = _ =>
        rewrite (AuthProvider_cases w1);
        change (localStorage w1) with (localStorage w) end.
      rewrite Hs, Hboth. destruct w; reflexivity.
  - cbn [fst]. (repeat split; [done..|]).
    match goal with |- AuthContext.AuthProvider ?w1 = _ =>
      rewrite (AuthProvider_cases w1);
      change (localStorage w1) with (localStorage w) end.
    rewrite Hs. destruct w; reflexivity.
Qed.

(** ** The client, by what the network does *)

Lemma fetch_handleResponse `{Host} req w :
  (ApiService.fetch req ≫= ApiService.handleResponse) w
  = match network w (length (requests w)) with
    | Rejects e => (with_requests (requests w ++ [req]) w, Threw e)
    | Responds r =>
        ApiService.handleResponse r (with_requests (requests w ++ [req]) w)
    end.
Proof.
  run. unfold ApiService.fetch.
  by destruct (network w (length (requests w))).
Qed.

(** Every operation is one [fetch] followed by [handleResponse]; only
    [register] and [login] build their headers without
    [getAuthHeaders]. *)
Lemma perform_by_network `{Host} op w :
  ∃ req,
    match op with
    | ApiService.Register _ => headers req = [("Content-Type", "application/json")]
    | ApiService.Login _ _ => headers req = []
    | _ => ApiService.getAuthHeaders w = (w, Returned (headers req))
    end ∧
    ApiService.perform op w
    = match network w (length (requests w)) with
      | Rejects e => (with_requests (requests w ++ [req]) w, Threw e)
      | Responds r =>
          ApiService.handleResponse r (with_requests (requests w ++ [req]) w)
      end.
Proof.
  destruct (getAuthHeaders_spec w) as (hs & Hhs & _).
  assert (∀ req, headers req = hs →
    (λ w, match ApiService.getAuthHeaders w with
          | (w', Returned a) => (ApiService.fetch req ≫= ApiService.handleResponse) w'
          | (w', Threw e) => (w', Threw e)
          end) w
    = match network w (length (requests w)) with
      | Rejects e => (with_requests (requests w ++ [req]) w, Threw e)
      | Responds r =>
          ApiService.handleResponse r (with_requests (requests w ++ [req]) w)
      end) as Hauth.
  { intros req _. cbv beta. rewrite Hhs. apply fetch_handleResponse. }
  destruct op; cbn [ApiService.perform].
  1: eexists (mkRequest _ _ _ _); split; [reflexivity|];
     unfold ApiService.register; apply fetch_handleResponse.
  1: eexists (mkRequest _ _ _ _); split; [reflexivity|];
     unfold ApiService.login; apply fetch_handleResponse.
  all: unfold ApiService.getCurrentUser, ApiService.getSweets, ApiService.searchSweets,
         ApiService.createSweet, ApiService.updateSweet, ApiService.deleteSweet,
         ApiService.purchaseSweet, ApiService.restockSweet.
  all: eexists (mkRequest _ _ hs _); split; [exact Hhs|].
  all: etrans; [|apply (Hauth (mkRequest _ _ hs _) eq_refl)].
  all: unfold mbind, M_bind, bind; rewrite Hhs; reflexivity.
Qed.

(** X7.  When the fetch rejects (the server cannot be reached), every
    operation of the client fails with the very error of the fetch,
    after exactly one request, and changes nothing else: the storage
    and the location are as before. *)
Theorem perform_rejected `{Host} op w e :
  network w (length (requests w)) = Rejects e →
  ∃ req,
    ApiService.perform op w = (with_requests (requests w ++ [req]) w, Threw e) ∧
    localStorage (ApiService.perform op w).1 = localStorage w ∧
    location_href (ApiService.perform op w).1 = location_href w ∧
    ApiService.getErrorMessage e
    = (if String.eqb (emessage e) "" then "An unexpected error occurred. Please try again."
       else emessage e).
Proof.
  intros Hnet. destruct (perform_by_network op w) as (req & _ & Hcall).
  rewrite Hnet in Hcall. exists req. rewrite Hcall. repeat split.
  unfold ApiService.getErrorMessage. by destruct (String.eqb (emessage e) "").
Qed.

Lemma perform_rejected_witness :
  ∃ req,
    @ApiService.perform example_host (ApiService.DeleteSweet 5) (fresh offline_network 0)
    = (with_requests (requests (fresh offline_network 0) ++ [req]) (fresh offline_network 0),
       Threw (mkThrown TypeError "Failed to fetch")) ∧
    localStorage
      (@ApiService.perform example_host (ApiService.DeleteSweet 5) (fresh offline_network 0)).1
    = localStorage (fresh offline_network 0) ∧
    location_href
      (@ApiService.perform example_host (ApiService.DeleteSweet 5) (fresh offline_network 0)).1
    = location_href (fresh offline_network 0) ∧
    ApiService.getErrorMessage (mkThrown TypeError "Failed to fetch")
    = (if String.eqb (emessage (mkThrown TypeError "Failed to fetch")) ""
       then "An unexpected error occurred. Please try again."
       else emessage (mkThrown TypeError "Failed to fetch")).
Proof.
  apply (@perform_rejected example_host (ApiService.DeleteSweet 5) (fresh offline_network 0)
           (mkThrown TypeError "Failed to fetch")).
  reflexivity.
Defined.

Lemma handleResponse_requests `{Host} response w :
  requests (ApiService.handleResponse response w).1 = requests w.
Proof.
  destruct (decide (status response = 401%N)) as [Hst|Hst].
  - by rewrite handleResponse_401.
  - by destruct (handleResponse_other response w Hst) as (r & ->).
Qed.

(** X8.  With a non-empty access token stored, every operation of the
    client other than [register] and [login] sends it as
    [Authorization: Bearer <token>] next to the JSON content type;
    [register] and [login] never send an [Authorization] header. *)
Theorem perform_bearer `{Host} op w t :
  localStorage w !! "access_token" = Some t → t ≠ "" →
  ∃ req,
    requests (ApiService.perform op w).1 = requests w ++ [req] ∧
    match op with
    | ApiService.Register _ | ApiService.Login _ _ =>
        ∀ v, ("Authorization", v) ∉ headers req
    | _ =>
        headers req
        = [("Content-Type", "application/json"); ("Authorization", "Bearer " +:+ t)]
    end.
Proof.
  intros Ht Hne. destruct (perform_by_network op w) as (req & Hheaders & Hcall).
  exists req. split.
  - rewrite Hcall. destruct (network w (length (requests w))) as [r|e]; [|done].
    by rewrite handleResponse_requests.
  - assert (ApiService.getAuthHeaders w
            = (w, Returned [("Content-Type", "application/json");
                            ("Authorization", "Bearer " +:+ t)])) as Hauth.
    { unfold ApiService.getAuthHeaders. run. cbv beta iota zeta. rewrite Ht. simpl.
      by destruct (String.eqb_spec t "") as [|_]. }
    destruct op; rewrite ?Hauth in Hheaders; try congruence.
    + rewrite Hheaders. intros v [[=]|Hin%elem_of_nil]%elem_of_cons. done.
    + rewrite Hheaders. intros v Hin%elem_of_nil. done.
Qed.

Lemma perform_bearer_witness :
  ∃ req,
    requests
      (@ApiService.perform example_host ApiService.GetCurrentUser
         (with_localStorage <["access_token" := "abc"]> (fresh offline_network 0))).1
    = requests (with_localStorage <["access_token" := "abc"]> (fresh offline_network 0))
        ++ [req] ∧
    headers req = [("Content-Type", "application/json"); ("Authorization", "Bearer " +:+ "abc")].
Proof.
  apply (@perform_bearer example_host ApiService.GetCurrentUser
           (with_localStorage <["access_token" := "abc"]> (fresh offline_network 0)) "abc").
  - reflexivity.
  - done.
Defined.

(** X9.  [storeAuthData] with an object for [tokens] writes the text of
    its [access_token] ("undefined" when the object has none) and the
    user record; [isAuthenticated()] is then true exactly when that text
    is not empty, and the headers carry it as the bearer token.
    [clearAuthData] afterwards undoes it: [isAuthenticated()] is false,
    [getStoredUser()] is null, no [Authorization] header is built, and
    every other entry of the storage is as it was before both calls. *)
Theorem storeAuthData_clearAuthData `{Host} tokens u w :
  tokens ≠ JNull →
  ∃ s w1 w2,
    s = match own_prop tokens "access_token" with
        | Some v => ToString v
        | None => "undefined"
        end ∧
    ApiService.storeAuthData tokens u w = (w1, Returned tt) ∧
    localStorage w1 !! "access_token" = Some s ∧
    localStorage w1 !! "user" = Some (JSON_stringify u) ∧
    ApiService.isAuthenticated w1 = (w1, Returned (negb (String.eqb s ""))) ∧
    ApiService.getAuthHeaders w1
    = (w1, Returned (("Content-Type", "application/json") ::
                     if String.eqb s "" then [] else [("Authorization", "Bearer " +:+ s)])) ∧
    ApiService.clearAuthData w1 = (w2, Returned tt) ∧
    ApiService.isAuthenticated w2 = (w2, Returned false) ∧
    ApiService.getStoredUser w2 = (w2, Returned JNull) ∧
    ApiService.getAuthHeaders w2 = (w2, Returned [("Content-Type", "application/json")]) ∧
    (∀ k, k ≠ "access_token" → k ≠ "user" → localStorage w2 !! k = localStorage w !! k).
Proof.
  intros Hobj. eexists _, _, _. split; [reflexivity|].
  unfold ApiService.storeAuthData, ApiService.clearAuthData, ApiService.isAuthenticated,
    ApiService.getStoredUser, ApiService.getAuthHeaders, read_prop.
  run. split; [by destruct tokens|].
  cbn [localStorage with_localStorage fst].
  rewrite lookup_insert_ne by done. rewrite !lookup_insert.
  repeat (case_decide; [|done]).
  split; [done|]. split; [done|]. split; [done|]. cbv beta iota zeta.
  split; [unfold truthy_item; by destruct (String.eqb _ "")|].
  split; [reflexivity|].
  cbn [localStorage with_localStorage fst].
  rewrite !lookup_delete_eq, lookup_delete_ne, lookup_delete_eq by done.
  repeat split.
  intros k Hk1 Hk2. by rewrite !lookup_delete_ne, !lookup_insert_ne.
Qed.

Lemma storeAuthData_clearAuthData_witness :
  ∃ s w1 w2,
    s = match own_prop (JObj [("token_type", JStr "bearer")]) "access_token" with
        | Some v => @ToString example_host v
        | None => "undefined"
        end ∧
    @ApiService.storeAuthData example_host (JObj [("token_type", JStr "bearer")])
      (JObj [("username", JStr "testuser")]) (fresh offline_network 0)
    = (w1, Returned tt) ∧
    localStorage w1 !! "access_token" = Some s ∧
    localStorage w1 !! "user"
    = Some (@JSON_stringify example_host (JObj [("username", JStr "testuser")])) ∧
    ApiService.isAuthenticated w1 = (w1, Returned (negb (String.eqb s ""))) ∧
    ApiService.getAuthHeaders w1
    = (w1, Returned (("Content-Type", "application/json") ::
                     if String.eqb s "" then [] else [("Authorization", "Bearer " +:+ s)])) ∧
    ApiService.clearAuthData w1 = (w2, Returned tt) ∧
    ApiService.isAuthenticated w2 = (w2, Returned false) ∧
    @ApiService.getStoredUser example_host w2 = (w2, Returned JNull) ∧
    ApiService.getAuthHeaders w2
    = (w2, Returned [("Content-Type", "application/json")]) ∧
    (∀ k, k ≠ "access_token" → k ≠ "user" →
       localStorage w2 !! k = localStorage (fresh offline_network 0) !! k).
Proof.
  apply (@storeAuthData_clearAuthData example_host (JObj [("token_type", JStr "bearer")])
           (JObj [("username", JStr "testuser")]) (fresh offline_network 0)).
  done.
Defined.

(** ** The login page *)


(** X10.  A form whose username is blank (empty or white space only) or
    whose password is empty is not submitted: no request is sent, no
    toast is published, the session is not touched (the world is
    unchanged); the page keeps what was typed and shows the error of
    each offending field, and of no other. *)
Theorem handleSubmit_invalid `{Host} p w :
  trim (LoginPage.formData_username p) = "" ∨ LoginPage.formData_password p = "" →
  ∃ p',
    LoginPage.handleSubmit p w = (w, Returned p') ∧
    LoginPage.formData_username p' = LoginPage.formData_username p ∧
    LoginPage.formData_password p' = LoginPage.formData_password p ∧
    LoginPage.isSubmitting p' = LoginPage.isSubmitting p ∧
    (LoginPage.errors_username p' = Some "Username is required"
     ∧ trim (LoginPage.formData_username p) = ""
     ∨ LoginPage.errors_username p' = None
       ∧ trim (LoginPage.formData_username p) ≠ "") ∧
    (LoginPage.errors_password p' = Some "Password is required"
     ∧ LoginPage.formData_password p = ""
     ∨ LoginPage.errors_password p' = None ∧ LoginPage.formData_password p ≠ "").
Proof.
  intros Hbad. unfold LoginPage.handleSubmit, LoginPage.validateForm.
  destruct (String.eqb_spec (trim (LoginPage.formData_username p)) "") as [Hu|Hu];
    destruct (String.eqb_spec (LoginPage.formData_password p) "") as [Hp|Hp];
    try (eexists; split; [reflexivity|]; simpl; by auto 10).
  by destruct Hbad.
Qed.

Lemma handleSubmit_invalid_witness :
  ∃ p',
    @LoginPage.handleSubmit example_host
      (LoginPage.mkPage "  " "test123" false false None None) (fresh expiring_network 0)
    = (fresh expiring_network 0, Returned p') ∧
    LoginPage.formData_username p' = "  " ∧
    LoginPage.formData_password p' = "test123" ∧
    LoginPage.isSubmitting p' = false ∧
    (LoginPage.errors_username p' = Some "Username is required" ∧ trim "  " = ""
     ∨ LoginPage.errors_username p' = None ∧ trim "  " ≠ "") ∧
    (LoginPage.errors_password p' = Some "Password is required" ∧ "test123" = ""
     ∨ LoginPage.errors_password p' = None ∧ "test123" ≠ "").
Proof.
  apply (@handleSubmit_invalid example_host
           (LoginPage.mkPage "  " "test123" false false None None)
           (fresh expiring_network 0)).
  left. reflexivity.
Defined.



(** X12.  Whether a form validates depends only on what was typed last
    in each field: after an input change of the username and one of the
    password, in either order and from any state of the page, the form
    is valid exactly when the username is not blank and the password
    is not empty; and an input change in one field leaves the other
    field and its error as they were. *)
Theorem handleInputChange_validateForm u pw p :
  (LoginPage.validateForm
     (LoginPage.handleInputChange LoginPage.password pw
        (LoginPage.handleInputChange LoginPage.username u p))).2
  = negb (String.eqb (trim u) "") && negb (String.eqb pw "") ∧
  LoginPage.validateForm
    (LoginPage.handleInputChange LoginPage.username u
       (LoginPage.handleInputChange LoginPage.password pw p))
  = LoginPage.validateForm
      (LoginPage.handleInputChange LoginPage.password pw
         (LoginPage.handleInputChange LoginPage.username u p)) ∧
  LoginPage.errors_password (LoginPage.handleInputChange LoginPage.username u p)
  = LoginPage.errors_password p ∧
  LoginPage.formData_password (LoginPage.handleInputChange LoginPage.username u p)
  = LoginPage.formData_password p ∧
  LoginPage.errors_username (LoginPage.handleInputChange LoginPage.password pw p)
  = LoginPage.errors_username p ∧
  LoginPage.formData_username (LoginPage.handleInputChange LoginPage.password pw p)
  = LoginPage.formData_username p.
Proof.
  unfold LoginPage.validateForm, LoginPage.handleInputChange. simpl.
  destruct (String.eqb (trim u) ""), (String.eqb pw ""); done.
Qed.

(** ** The connection test of the App *)

(** X13.  [testApi] never throws and sends exactly one request, a GET
    of the sweets.  A 401 is reported as "API Connected (Ready for
    authentication)" and, through the client, removes the stored access
    token and user and navigates to the login page.  A call that
    resolves (a 204, or a 2xx with a JSON body) is reported as "API
    Connected (Authentication required)".  A rejected fetch whose
    message mentions neither "401" nor "Session expired" is reported as
    "API Error: " followed by that message, with the storage and the
    location untouched. *)
Theorem testApi_status `{Host} w :
  ∃ w' s req,
    App.testApi w = (w', Returned s) ∧
    requests w' = requests w ++ [req] ∧
    url req = ApiService.baseURL +:+ "/api/sweets" ∧ method req = "GET" ∧
    (∀ r, network w (length (requests w)) = Responds r → status r = 401%N →
       s = "API Connected (Ready for authentication)" ∧
       location_href w' = "/login" ∧
       localStorage w' = delete "user" (delete "access_token" (localStorage w))) ∧
    (∀ r, network w (length (requests w)) = Responds r → ApiService.ok r = true →
       status r = 204%N ∨ is_Some (json_body r) →
       s = "API Connected (Authentication required)" ∧
       location_href w' = location_href w ∧ localStorage w' = localStorage w) ∧
    (∀ e, network w (length (requests w)) = Rejects e →
       includes (emessage e) "401" = false →
       includes (emessage e) "Session expired" = false →
       s = "API Error: " +:+ emessage e ∧
       location_href w' = location_href w ∧ localStorage w' = localStorage w).
Proof.
  destruct (getAuthHeaders_spec w) as (hs & Hhs & _).
  set (req := mkRequest (ApiService.baseURL +:+ "/api/sweets") "GET" hs NoBody).
  assert (ApiService.getSweets w
          = match network w (length (requests w)) with
            | Rejects e => (with_requests (requests w ++ [req]) w, Threw e)
            | Responds r =>
                ApiService.handleResponse r (with_requests (requests w ++ [req]) w)
            end) as Hcall.
  { rewrite <- fetch_handleResponse. unfold ApiService.getSweets, mbind, M_bind, bind.
    by rewrite Hhs. }
  assert (∃ w' s, App.testApi w = (w', Returned s) ∧
            w' = (ApiService.getSweets w).1 ∧
            s = match (ApiService.getSweets w).2 with
                | Returned _ => "API Connected (Authentication required)"
                | Threw e =>
                    if includes (emessage e) "401" || includes (emessage e) "Session expired"
                    then "API Connected (Ready for authentication)"
                    else "API Error: " +:+ emessage e
                end) as (w' & s & Htest & Hw' & Hs).
  { unfold App.testApi. run.
    destruct (ApiService.getSweets w) as [w1 [v|e]]; cbv beta iota zeta; cbn [fst snd];
      [by eexists _, _|].
    destruct (includes (emessage e) "401" || includes (emessage e) "Session expired");
      by eexists _, _. }
  exists w', s, req. split; [exact Htest|].
  rewrite Hcall in Hw', Hs. subst w' s.
  split; [|split; [done|split; [done|]]].
  { destruct (network w (length (requests w))) as [r|e]; [|done].
    by rewrite handleResponse_requests. }
  split; [|split].
  - intros r -> Hst. by rewrite handleResponse_401.
  - intros r -> Hok Hbody. unfold ApiService.handleResponse, ApiService.json.
    destruct (N.eqb_spec (status r) 401) as [Hst|_]; [unfold ApiService.ok in Hok; by rewrite Hst in Hok|].
    rewrite Hok. cbn [negb].
    destruct Hbody as [->|[v ->]]; [done|].
    by destruct (status r =? 204)%N.
  - intros e -> H401 Hexp. cbn [fst snd]. by rewrite H401, Hexp.
Qed.

(** ** The toast bus: listeners, ids and order *)

Lemma ids_increase_snoc l t n :
  ids_increase l → Forall (λ t', (toast_id t' ≤ n)%N) l → (n < toast_id t)%N →
  ids_increase (l ++ [t]).
Proof.
  intros Hinc Hall Hnew l1 l2 t1 t2 Heq Hin1 Hin2.
  destruct l2 as [|x l2 _] using rev_ind; [by apply elem_of_nil in Hin2|].
  rewrite app_assoc in Heq. apply app_inj_tail in Heq as [-> ->].
  apply elem_of_app in Hin2 as [Hin2|Hin2%list_elem_of_singleton].
  - by apply (Hinc l1 l2).
  - subst t2. rewrite Forall_forall in Hall.
    eapply N.le_lt_trans; [|exact Hnew]. apply Hall, elem_of_app. by left.
Qed.

Lemma ids_increase_sublist l k : sublist l k → ids_increase k → ids_increase l.
Proof.
  intros Hsub Hinc l1 l2 t1 t2 -> Hin1 Hin2.
  apply sublist_app_l in Hsub as (k1 & k2 & -> & Hs1 & Hs2).
  apply (Hinc k1 k2); [done| |].
  - by eapply elem_of_sublist.
  - by eapply elem_of_sublist.
Qed.

Lemma ids_increase_NoDup l : ids_increase l → NoDup (toast_id <$> l).
Proof.
  induction l as [|t l IH]; intros Hinc; [constructor|].
  rewrite fmap_cons. constructor.
  - intros (t' & Hid & Hin)%list_elem_of_fmap.
    pose proof (Hinc [t] l t t' eq_refl) as Hlt.
    rewrite Hid in Hlt. eapply N.lt_irrefl, Hlt; [by apply list_elem_of_singleton|done].
  - apply IH. intros l1 l2 t1 t2 -> Hin1 Hin2.
    apply (Hinc (t :: l1) l2); [done| |done]. by apply elem_of_cons; right.
Qed.

Lemma bus_wf_same w w' :
  toastListeners w' = toastListeners w → toasts w' = toasts w →
  instances w' = instances w → published w' = published w → toastId w' = toastId w →
  bus_wf w → bus_wf w'.
Proof.
  unfold bus_wf. intros -> -> -> -> ->. done.
Qed.

(** What the listeners do to the state of a component: each listener
    appends the toast to its own component. *)
Lemma listeners_toasts toast l w c :
  NoDup l →
  toasts (foldl (λ w' c, ToastBus.listener c toast w') w l) !! c
  = if decide (c ∈ l) then (λ prev, prev ++ [toast]) <$> toasts w !! c
    else toasts w !! c.
Proof.
  revert w. induction l as [|x l IH]; intros w Hnd.
  - cbn [foldl]. destruct (decide (c ∈ [])) as [Hin|_]; [by apply elem_of_nil in Hin|done].
  - apply NoDup_cons in Hnd as [Hx Hnd]. simpl. rewrite IH by done.
    simpl. rewrite lookup_alter.
    destruct (decide (x = c)) as [->|Hne].
    + rewrite decide_False by done. rewrite decide_True by (apply elem_of_cons; by left).
      done.
    + destruct (decide (c ∈ l)) as [Hin|Hin].
      * rewrite decide_True by (apply elem_of_cons; by right). done.
      * rewrite decide_False; [done|]. intros [->|?]%elem_of_cons; done.
Qed.

Lemma showToast_toasts message type w c :
  NoDup (toastListeners w) →
  toasts (ToastBus.showToast message type w).1 !! c
  = if decide (c ∈ toastListeners w)
    then (λ prev, prev ++ [mkToast (toastId w + 1) message type (now w)]) <$> toasts w !! c
    else toasts w !! c.
Proof.
  intros Hnd. unfold ToastBus.showToast. cbn [fst].
  rewrite listeners_toasts by done. done.
Qed.

Lemma showToast_wf message type w :
  bus_wf w → bus_wf (ToastBus.showToast message type w).1.
Proof.
  intros (Hnd & Hstate & Hinst & Hinc & Hmax & Hsub).
  pose proof (showToast_toasts message type w) as Hts.
  destruct (showToast_effect message type w) as (w' & Heq & Hframe & Hid & Hpub).
  rewrite Heq in Hts |- *. cbn [fst] in *.
  destruct Hframe as (_ & _ & _ & _ & Hl & _ & Hi & _).
  unfold bus_wf. rewrite Hl, Hi, Hid, Hpub. split; [done|]. split; [|split; [done|]].
  { intros c. rewrite Hts by done. case_decide as Hin.
    - rewrite fmap_is_Some. by apply Hstate.
    - by apply Hstate. }
  split; [|split].
  - eapply ids_increase_snoc; [done..|]. simpl. lia.
  - apply Forall_app. split.
    + eapply Forall_impl; [exact Hmax|]. simpl. intros t. lia.
    + apply Forall_singleton. done.
  - intros c ts. rewrite Hts by done. case_decide as Hin.
    + destruct (toasts w !! c) as [old|] eqn:Hold; [|done]. simpl. intros [= <-].
      apply sublist_app; [by eapply Hsub|done].
    + intros Hc. by apply sublist_inserts_r, (Hsub c).
Qed.

Lemma removeToast_wf c id w : bus_wf w → bus_wf (ToastBus.removeToast c id w).
Proof.
  intros (Hnd & Hstate & Hinst & Hinc & Hmax & Hsub).
  unfold bus_wf. simpl. split; [done|]. split; [|split; [done|split; [done|split; [done|]]]].
  - intros c'. rewrite lookup_alter. case_decide as Hc.
    + subst c'. rewrite fmap_is_Some. apply Hstate.
    + apply Hstate.
  - intros c' ts. rewrite lookup_alter. case_decide as Hc.
    + subst c'. destruct (toasts w !! c) as [old|] eqn:Hold; [|done]. simpl. intros [= <-].
      etrans; [apply sublist_filter|]. by eapply Hsub.
    + apply Hsub.
Qed.

Lemma mount_wf w : bus_wf w → bus_wf (ToastBus.mount w).1.
Proof.
  intros (Hnd & Hstate & Hinst & Hinc & Hmax & Hsub).
  unfold bus_wf. simpl. split; [|split; [|split; [|split; [done|split; [done|]]]]].
  - apply NoDup_app. split; [done|]. split; [|apply NoDup_singleton].
    intros c Hin ->%list_elem_of_singleton. apply Hinst in Hin. lia.
  - intros c. rewrite elem_of_app, list_elem_of_singleton, lookup_insert.
    case_decide as Hc.
    + subst c. split; [by eauto|by right].
    + rewrite <- Hstate. split; [by intros [?|?]|by left].
  - intros c [Hin| ->%list_elem_of_singleton]%elem_of_app; [|lia].
    apply Hinst in Hin. lia.
  - intros c ts. rewrite lookup_insert. case_decide as Hc.
    + intros [= <-]. apply sublist_nil_l.
    + apply Hsub.
Qed.

Lemma remove_first_sublist c l : sublist (ToastBus.remove_first c l) l.
Proof.
  induction l as [|x l IH]; simpl; [done|].
  case_decide; [by apply sublist_cons|by apply sublist_skip].
Qed.

Lemma remove_first_elem c l x :
  NoDup l → x ∈ ToastBus.remove_first c l ↔ x ∈ l ∧ x ≠ c.
Proof.
  induction l as [|y l IH]; simpl; intros Hnd.
  - split; [by intros ?%elem_of_nil|by intros [?%elem_of_nil _]].
  - apply NoDup_cons in Hnd as [Hy Hnd]. case_decide as Hc.
    + subst y. rewrite elem_of_cons. split.
      * intros Hin. split; [by right|]. by intros ->.
      * by intros [[->|?] ?].
    + rewrite !elem_of_cons, IH by done. split.
      * intros [->|[? ?]]; [by split; [left|]|by split; [right|]].
      * intros [[->|?] ?]; [by left|by right].
Qed.

Lemma unmount_wf c w : bus_wf w → bus_wf (ToastBus.unmount c w).
Proof.
  intros (Hnd & Hstate & Hinst & Hinc & Hmax & Hsub).
  unfold bus_wf. simpl. split; [|split; [|split; [|split; [done|split; [done|]]]]].
  - eapply sublist_NoDup; [exact Hnd|apply remove_first_sublist].
  - intros c'. rewrite remove_first_elem by done. rewrite lookup_delete.
    case_decide as Hc.
    + subst c'. split; [by intros [_ ?]|by intros [? [=]]].
    + rewrite <- Hstate. split; [by intros [? _]|by intros ?; split].
  - intros c' [Hin _]%remove_first_elem; [by apply Hinst|done].
  - intros c' ts. rewrite lookup_delete. case_decide as Hc; [done|]. apply Hsub.
Qed.

Lemma elapse_wf dt w : bus_wf w → bus_wf (ToastBus.elapse dt w).
Proof.
  intros (Hnd & Hstate & Hinst & Hinc & Hmax & Hsub). unfold ToastBus.elapse.
  match goal with |- bus_wf (foldl _ ?w1 ?l) =>
    pose proof (fire_all_frame l w1) as (_ & _ & Hframe & Hid & Hpub);
    pose proof (fire_all_toasts l w1) as Hts end.
  destruct Hframe as (_ & _ & _ & _ & Hl & _ & Hi & _).
  simpl in Hl, Hi, Hid, Hpub.
  unfold bus_wf. rewrite Hl, Hi, Hid, Hpub. split; [done|]. split; [|split; [done|]].
  { intros c. rewrite Hts. simpl. rewrite fmap_is_Some. apply Hstate. }
  split; [done|]. split; [done|].
  intros c ts. rewrite Hts. simpl.
  destruct (toasts w !! c) as [old|] eqn:Hold; [|done]. simpl. intros [= <-].
  etrans; [apply sublist_filter|]. by eapply Hsub.
Qed.

Lemma tick_wf dt w : bus_wf w → bus_wf (ToastBus.tick dt w).
Proof. by apply bus_wf_same. Qed.

Lemma timeout_wf i w : bus_wf w → bus_wf (ToastBus.timeout i w).
Proof.
  intros Hwf. unfold ToastBus.timeout.
  destruct (timers w !! i) as [tm|]; [|done].
  destruct (decide (due tm ≤ now w)%N); [|done].
  apply removeToast_wf. by eapply bus_wf_same; [..|exact Hwf].
Qed.

#[local] Instance keeps_bus_wf_respected : Respected keeps_bus_wf.
Proof.
  unfold keeps_bus_wf. split.
  - split; [by intros w|]. intros w1 w2 w3 H12 H23 Hinv. by apply H23, H12.
  - intros w l. by apply bus_wf_same.
  - intros w u. by apply bus_wf_same.
  - intros w b. by apply bus_wf_same.
  - intros w href. by apply bus_wf_same.
  - intros w n. by apply bus_wf_same.
  - intros w k. by apply bus_wf_same.
  - intros w v. by apply bus_wf_same.
  - intros w v. by apply bus_wf_same.
  - intros message type w. apply showToast_wf.
Qed.

Lemma reachable_bus_wf `{Host} w : reachable w → bus_wf w.
Proof.
  intros (net & t0 & Hrtc).
  eapply (rtc_ind_r bus_wf (fresh net t0)); [| |exact Hrtc].
  - unfold bus_wf. simpl. split; [constructor|]. split; [|split; [|split; [|split]]].
    + intros c. rewrite lookup_empty. split; [by intros ?%elem_of_nil|by intros [? [=]]].
    + by intros c ?%elem_of_nil.
    + intros l1 l2 t1 t2 Heq Hin1.
      symmetry in Heq. apply app_eq_nil in Heq as [-> _]. by apply elem_of_nil in Hin1.
    + constructor.
    + intros c ts. by rewrite lookup_empty.
  - intros w1 w2 _ Hstep. revert w1 w2 Hstep.
    apply (step_keeps keeps_bus_wf).
    + exact removeToast_wf.
    + exact mount_wf.
    + exact unmount_wf.
    + exact elapse_wf.
    + exact tick_wf.
    + exact timeout_wf.
Qed.

Lemma visible_sublist c w : bus_wf w → sublist (ToastBus.visible c w) (published w).
Proof.
  intros (_ & _ & _ & _ & _ & Hsub). unfold ToastBus.visible.
  destruct (toasts w !! c) as [ts|] eqn:Hts; simpl; [by eapply Hsub|apply sublist_nil_l].
Qed.

Lemma visible_unmounted c w :
  bus_wf w → c ∉ toastListeners w → toasts w !! c = None.
Proof.
  intros (_ & Hstate & _) Hout. apply eq_None_not_Some. by rewrite <- Hstate.
Qed.

(** X14.  In every state the application reaches, the toasts published
    so far carry pairwise different ids that increase in the order of
    publication and are at most [toastId], so the id the next
    [showToast] returns is new; and every Toast component shows a
    sublist of the published toasts, in the order of publication and
    without a repeated id, which is empty when the component is not
    mounted. *)
Theorem toast_ids_ordered `{Host} w :
  reachable w →
  ids_increase (published w) ∧
  NoDup (toast_id <$> published w) ∧
  (∀ message type,
     ∃ w', ToastBus.showToast message type w = (w', Returned (toastId w + 1)%N) ∧
           (toastId w + 1)%N ∉ toast_id <$> published w) ∧
  ∀ c,
    sublist (ToastBus.visible c w) (published w) ∧
    ids_increase (ToastBus.visible c w) ∧
    NoDup (toast_id <$> ToastBus.visible c w) ∧
    (c ∉ toastListeners w → ToastBus.visible c w = []).
Proof.
  intros Hreach. pose proof (reachable_bus_wf w Hreach) as Hwf.
  pose proof Hwf as (Hnd & Hstate & Hinst & Hinc & Hmax & Hsub).
  split; [done|]. split; [by apply ids_increase_NoDup|]. split.
  - intros message type.
    destruct (showToast_effect message type w) as (w' & Heq & _).
    exists w'. split; [done|].
    intros (t & Hid & Hin)%list_elem_of_fmap.
    rewrite Forall_forall in Hmax. apply Hmax in Hin. lia.
  - intros c. pose proof (visible_sublist c w Hwf) as Hvis.
    split; [done|]. split; [by eapply ids_increase_sublist|].
    split; [by eapply ids_increase_NoDup, ids_increase_sublist|].
    intros Hout. unfold ToastBus.visible. by rewrite visible_unmounted.
Qed.

Lemma toast_ids_ordered_witness :
  ids_increase (published toast_world) ∧
  NoDup (toast_id <$> published toast_world) ∧
  (∀ message type,
     ∃ w', ToastBus.showToast message type toast_world
           = (w', Returned (toastId toast_world + 1)%N) ∧
           (toastId toast_world + 1)%N ∉ toast_id <$> published toast_world) ∧
  ∀ c,
    sublist (ToastBus.visible c toast_world) (published toast_world) ∧
    ids_increase (ToastBus.visible c toast_world) ∧
    NoDup (toast_id <$> ToastBus.visible c toast_world) ∧
    (c ∉ toastListeners toast_world → ToastBus.visible c toast_world = []).
Proof.
  apply (@toast_ids_ordered example_host toast_world).
  exists expiring_network, 0%N.
  eapply rtc_l; [apply step_toast_mount|].
  eapply rtc_l; [apply (step_toast "Logged out successfully" success)|].
  apply rtc_once, step_elapse.
Defined.

(** X15.  In every state the application reaches, [showToast] delivers
    the new toast to every mounted Toast component exactly once, after
    the toasts the component already shows, and to no other; the other
    toasts stay as they are. *)
Theorem showToast_delivery `{Host} message type w c :
  reachable w →
  ToastBus.visible c (ToastBus.showToast message type w).1
  = if decide (c ∈ toastListeners w)
    then ToastBus.visible c w ++ [mkToast (toastId w + 1) message type (now w)]
    else [].
Proof.
  intros Hreach. pose proof (reachable_bus_wf w Hreach) as Hwf.
  pose proof Hwf as (Hnd & Hstate & _).
  unfold ToastBus.visible. rewrite showToast_toasts by done.
  case_decide as Hin.
  - apply Hstate in Hin as [ts ->]. done.
  - by rewrite visible_unmounted.
Qed.

Lemma showToast_delivery_witness :
  ToastBus.visible 0 (ToastBus.showToast "Saved" info toast_world).1
  = if decide (0%nat ∈ toastListeners toast_world)
    then ToastBus.visible 0 toast_world
           ++ [mkToast (toastId toast_world + 1) "Saved" info (now toast_world)]
    else [].
Proof.
  apply (@showToast_delivery example_host "Saved" info toast_world 0).
  exists expiring_network, 0%N.
  eapply rtc_l; [apply step_toast_mount|].
  eapply rtc_l; [apply (step_toast "Logged out successfully" success)|].
  apply rtc_once, step_elapse.
Defined.

Lemma without_without i j l :
  ToastBus.without i (ToastBus.without j l) = ToastBus.without j (ToastBus.without i l).
Proof.
  unfold ToastBus.without. rewrite !list_filter_filter.
  apply list_filter_iff. intros t. tauto.
Qed.

Lemma without_idemp i l : ToastBus.without i (ToastBus.without i l) = ToastBus.without i l.
Proof.
  unfold ToastBus.without. rewrite list_filter_filter.
  apply list_filter_iff. intros t. tauto.
Qed.

(** X16.  Dismissals are idempotent and commute: dismissing the same
    toast twice (a second click, or the timer of a toast that was
    clicked away, which is never cancelled) changes nothing more, and
    two dismissals, in the same component or in two, give the same
    state in either order.  After the dismissal of [i] in [c] no toast
    with that id is shown there; what any component shows is a sublist
    of what it showed; and the listeners, the pending timers and the
    published toasts are untouched. *)
Theorem removeToast_algebra c c' i j w :
  ToastBus.removeToast c i (ToastBus.removeToast c i w) = ToastBus.removeToast c i w ∧
  ToastBus.fire (mkTimer (now w + 4000) c i) (ToastBus.removeToast c i w)
  = ToastBus.removeToast c i w ∧
  ToastBus.removeToast c i (ToastBus.removeToast c' j w)
  = ToastBus.removeToast c' j (ToastBus.removeToast c i w) ∧
  (∀ t, t ∈ ToastBus.visible c (ToastBus.removeToast c i w) → toast_id t ≠ i) ∧
  sublist (ToastBus.visible c' (ToastBus.removeToast c i w)) (ToastBus.visible c' w) ∧
  timers (ToastBus.removeToast c i w) = timers w ∧
  toastListeners (ToastBus.removeToast c i w) = toastListeners w ∧
  published (ToastBus.removeToast c i w) = published w.
Proof.
  assert (ToastBus.removeToast c i (ToastBus.removeToast c i w)
          = ToastBus.removeToast c i w) as Hidem.
  { unfold ToastBus.removeToast, with_bus. simpl. f_equal.
    rewrite alter_alter_eq. apply alter_ext. intros ts _. apply without_idemp. }
  split; [exact Hidem|]. split; [exact Hidem|]. split; [|split; [|split]].
  - unfold ToastBus.removeToast, with_bus. simpl. f_equal.
    destruct (decide (c = c')) as [->|Hne].
    + rewrite !alter_alter_eq. apply alter_ext. intros ts _. apply without_without.
    + by apply alter_alter_ne.
  - intros t. unfold ToastBus.visible. simpl. rewrite lookup_alter_eq.
    destruct (toasts w !! c) as [ts|]; simpl; [|by intros ?%elem_of_nil].
    by intros [? _]%list_elem_of_filter.
  - unfold ToastBus.visible. simpl. rewrite lookup_alter. case_decide as Hc; [|done].
    subst c'. destruct (toasts w !! c) as [ts|]; simpl; [|done]. apply sublist_filter.
  - done.
Qed.

Lemma filter_all_in {A} (P : A → Prop) `{!∀ x, Decision (P x)} (l : list A) :
  (∀ x, x ∈ l → P x) → filter P l = l.
Proof.
  intros HP. induction l as [|x l IH]; [done|].
  rewrite filter_cons_True by (apply HP, elem_of_cons; by left).
  rewrite IH; [done|]. intros y Hy. apply HP, elem_of_cons. by right.
Qed.

(** X17.  In every state the application reaches, a click on a toast
    that a component shows removes that toast from that component and
    nothing else: the toasts before it and after it stay, in their
    order. *)
Theorem removeToast_exact `{Host} c t w :
  reachable w → t ∈ ToastBus.visible c w →
  ∃ l1 l2,
    ToastBus.visible c w = l1 ++ t :: l2 ∧
    ToastBus.visible c (ToastBus.removeToast c (toast_id t) w) = l1 ++ l2.
Proof.
  intros Hreach Hin. pose proof (reachable_bus_wf w Hreach) as Hwf.
  pose proof (ids_increase_sublist _ _ (visible_sublist c w Hwf)) as Hinc.
  destruct Hwf as (_ & _ & _ & Hpub & _). specialize (Hinc Hpub).
  apply list_elem_of_split in Hin as (l1 & l2 & Hsplit).
  exists l1, l2. split; [done|].
  unfold ToastBus.visible in *. simpl. rewrite lookup_alter_eq.
  destruct (toasts w !! c) as [ts|]; simpl in *; [|by destruct l1].
  subst ts. unfold ToastBus.without.
  rewrite filter_app, filter_cons_False by (by intros Hne; apply Hne).
  rewrite !filter_all_in; [done| |].
  - intros t' Hin' Heq.
    assert (toast_id t < toast_id t')%N as Hlt; [|lia].
    apply (Hinc (l1 ++ [t]) l2); [by rewrite <- app_assoc| |done].
    apply elem_of_app. right. by apply list_elem_of_singleton.
  - intros t' Hin' Heq.
    assert (toast_id t' < toast_id t)%N as Hlt; [|lia].
    apply (Hinc l1 (t :: l2)); [done..|]. by apply elem_of_cons; left.
Qed.

Lemma removeToast_exact_witness :
  ∃ l1 l2,
    ToastBus.visible 0 toast_world
    = l1 ++ mkToast 1 "Logged out successfully" success 0 :: l2 ∧
    ToastBus.visible 0
      (ToastBus.removeToast 0 (toast_id (mkToast 1 "Logged out successfully" success 0))
         toast_world)
    = l1 ++ l2.
Proof.
  apply (@removeToast_exact example_host 0 (mkToast 1 "Logged out successfully" success 0)
           toast_world).
  - exists expiring_network, 0%N.
    eapply rtc_l; [apply step_toast_mount|].
    eapply rtc_l; [apply (step_toast "Logged out successfully" success)|].
    apply rtc_once, step_elapse.
  - apply list_elem_of_singleton. reflexivity.
Defined.

Lemma remove_first_notin c l : c ∉ l → ToastBus.remove_first c l = l.
Proof.
  induction l as [|x l IH]; simpl; [done|].
  intros Hout. apply not_elem_of_cons in Hout as [Hne Hout].
  rewrite decide_False by done. by rewrite IH.
Qed.

(** X18.  In every state the application reaches, unmounting a Toast
    component removes its listener and its state and nothing of any
    other component.  Afterwards toasts that are published do not reach
    it, the timers it left behind fire without effect, and unmounting
    it again changes nothing. *)
Theorem unmount_effect `{Host} c w :
  reachable w →
  (c ∉ toastListeners (ToastBus.unmount c w)) ∧
  ToastBus.visible c (ToastBus.unmount c w) = [] ∧
  (∀ c', c' ≠ c →
     ToastBus.visible c' (ToastBus.unmount c w) = ToastBus.visible c' w ∧
     (c' ∈ toastListeners (ToastBus.unmount c w) ↔ c' ∈ toastListeners w)) ∧
  (∀ message type,
     ToastBus.visible c (ToastBus.showToast message type (ToastBus.unmount c w)).1 = []) ∧
  (∀ tm, owner tm = c → ToastBus.fire tm (ToastBus.unmount c w) = ToastBus.unmount c w) ∧
  ToastBus.unmount c (ToastBus.unmount c w) = ToastBus.unmount c w.
Proof.
  intros Hreach. pose proof (reachable_bus_wf w Hreach) as Hwf.
  pose proof (unmount_wf c w Hwf) as Hwf'.
  pose proof Hwf as (Hnd & _). pose proof Hwf' as (Hnd' & _).
  assert (c ∉ toastListeners (ToastBus.unmount c w)) as Hout.
  { simpl. rewrite remove_first_elem by done. by intros [_ ?]. }
  split; [done|]. split; [|split; [|split; [|split]]].
  - unfold ToastBus.visible. simpl. by rewrite lookup_delete_eq.
  - intros c' Hne. split.
    + unfold ToastBus.visible. simpl. by rewrite lookup_delete_ne.
    + simpl. rewrite remove_first_elem by done. split; [by intros [? _]|done].
  - intros message type. unfold ToastBus.visible.
    rewrite showToast_toasts by done. rewrite decide_False by done.
    simpl. by rewrite lookup_delete_eq.
  - intros tm <-. unfold ToastBus.fire, ToastBus.removeToast, ToastBus.unmount, with_bus.
    simpl. f_equal. apply alter_id', lookup_delete_eq.
  - unfold ToastBus.unmount, with_bus. simpl. f_equal.
    + by apply remove_first_notin.
    + apply delete_id, lookup_delete_eq.
Qed.

Lemma unmount_effect_witness :
  (0%nat ∉ toastListeners (ToastBus.unmount 0 toast_world)) ∧
  ToastBus.visible 0 (ToastBus.unmount 0 toast_world) = [] ∧
  (∀ c', c' ≠ 0%nat →
     ToastBus.visible c' (ToastBus.unmount 0 toast_world) = ToastBus.visible c' toast_world ∧
     (c' ∈ toastListeners (ToastBus.unmount 0 toast_world) ↔ c' ∈ toastListeners toast_world)) ∧
  (∀ message type,
     ToastBus.visible 0 (ToastBus.showToast message type (ToastBus.unmount 0 toast_world)).1
     = []) ∧
  (∀ tm, owner tm = 0%nat →
     ToastBus.fire tm (ToastBus.unmount 0 toast_world) = ToastBus.unmount 0 toast_world) ∧
  ToastBus.unmount 0 (ToastBus.unmount 0 toast_world) = ToastBus.unmount 0 toast_world.
Proof.
  apply (@unmount_effect example_host 0 toast_world).
  exists expiring_network, 0%N.
  eapply rtc_l; [apply step_toast_mount|].
  eapply rtc_l; [apply (step_toast "Logged out successfully" success)|].
  apply rtc_once, step_elapse.
Defined.

(** X19.  In every state the application reaches, a Toast component
    that mounts is a new instance that starts empty: the toasts
    published before are not replayed to it, the other components show
    what they showed, and the next toast published is the first and
    only toast it shows. *)
Theorem mount_then_showToast `{Host} w message type :
  reachable w →
  (ToastBus.mount w).2 = instances w ∧
  ((ToastBus.mount w).2 ∉ toastListeners w) ∧
  published (ToastBus.mount w).1 = published w ∧
  ToastBus.visible (ToastBus.mount w).2 (ToastBus.mount w).1 = [] ∧
  (∀ c', c' ≠ (ToastBus.mount w).2 →
     ToastBus.visible c' (ToastBus.mount w).1 = ToastBus.visible c' w) ∧
  ToastBus.visible (ToastBus.mount w).2
    (ToastBus.showToast message type (ToastBus.mount w).1).1
  = [mkToast (toastId w + 1) message type (now w)].
Proof.
  intros Hreach. pose proof (reachable_bus_wf w Hreach) as Hwf.
  pose proof (mount_wf w Hwf) as Hwf'.
  pose proof Hwf as (_ & _ & Hinst & _). pose proof Hwf' as (Hnd' & _).
  split; [done|]. split; [|split; [done|split; [|split]]].
  - simpl. intros Hin%Hinst. lia.
  - unfold ToastBus.visible. simpl. by rewrite lookup_insert_eq.
  - intros c' Hne. unfold ToastBus.visible. simpl in *. by rewrite lookup_insert_ne.
  - unfold ToastBus.visible. rewrite showToast_toasts by done.
    simpl. rewrite decide_True by (apply elem_of_app; right; by apply list_elem_of_singleton).
    by rewrite lookup_insert_eq.
Qed.

Lemma mount_then_showToast_witness :
  (ToastBus.mount toast_world).2 = instances toast_world ∧
  ((ToastBus.mount toast_world).2 ∉ toastListeners toast_world) ∧
  published (ToastBus.mount toast_world).1 = published toast_world ∧
  ToastBus.visible (ToastBus.mount toast_world).2 (ToastBus.mount toast_world).1 = [] ∧
  (∀ c', c' ≠ (ToastBus.mount toast_world).2 →
     ToastBus.visible c' (ToastBus.mount toast_world).1 = ToastBus.visible c' toast_world) ∧
  ToastBus.visible (ToastBus.mount toast_world).2
    (ToastBus.showToast "Saved" info (ToastBus.mount toast_world).1).1
  = [mkToast (toastId toast_world + 1) "Saved" info (now toast_world)].
Proof.
  apply (@mount_then_showToast example_host toast_world "Saved" info).
  exists expiring_network, 0%N.
  eapply rtc_l; [apply step_toast_mount|].
  eapply rtc_l; [apply (step_toast "Logged out successfully" success)|].
  apply rtc_once, step_elapse.
Defined.

(** ** The stock badges and the search query *)

(** X20.  A sweet that is out of stock is not low on stock as well, so
    only one of the two badges is shown; its Buy button does nothing to
    the card, and a purchase of it, should one be submitted, is rejected
    before any request: the card and the list of requests are as
    before. *)
Theorem out_of_stock_badge `{Host} sweet onUpdate card w :
  SweetCard.isOutOfStock sweet = true →
  SweetCard.isLowStock sweet = false ∧
  SweetCard.clickBuy sweet card = card ∧
  (SweetCard.handlePurchase sweet onUpdate card w).2 = Returned card ∧
  requests (SweetCard.handlePurchase sweet onUpdate card w).1 = requests w.
Proof.
  unfold SweetCard.clickBuy, SweetCard.isLowStock, SweetCard.isOutOfStock.
  intros Hout. rewrite Hout. apply Qeq_bool_iff in Hout.
  assert (SweetCard.quantity sweet <= 0)%Q as Hle by (rewrite Hout; apply Qle_refl).
  split; [|split; [done|]].
  - apply Qle_bool_iff in Hle. by rewrite Hle.
  - unfold SweetCard.handlePurchase. rewrite (guard_true sweet card).
    + unfold ToastBus.showError. run.
      destruct (showToast_effect "Invalid quantity selected" error w)
        as (w2 & -> & Hframe & _).
      destruct Hframe as (_ & _ & _ & Hreq & _). done.
    + destruct (Qlt_le_dec 0 (SweetCard.purchaseQuantity card)) as [Hpos|Hneg]; [|by left].
      right. eapply Qle_lt_trans; [exact Hle|exact Hpos].
Qed.

Lemma out_of_stock_badge_witness :
  SweetCard.isLowStock (SweetCard.mkSweet 7 "Barfi" "Indian" 4 0) = false ∧
  SweetCard.clickBuy (SweetCard.mkSweet 7 "Barfi" "Indian" 4 0) SweetCard.initial
  = SweetCard.initial ∧
  (@SweetCard.handlePurchase example_host (SweetCard.mkSweet 7 "Barfi" "Indian" 4 0) true
     SweetCard.initial purchase_world).2
  = Returned SweetCard.initial ∧
  requests
    (@SweetCard.handlePurchase example_host (SweetCard.mkSweet 7 "Barfi" "Indian" 4 0) true
       SweetCard.initial purchase_world).1
  = requests purchase_world.
Proof.
  apply (@out_of_stock_badge example_host (SweetCard.mkSweet 7 "Barfi" "Indian" 4 0) true
           SweetCard.initial purchase_world).
  reflexivity.
Defined.

Lemma query_of_keys `{Host} params : sublist (ApiService.query_of params).*1 params.*1.
Proof.
  unfold ApiService.query_of. induction params as [|[k v] params IH]; [done|].
  cbn [omap list_omap fmap list_fmap fst snd].
  destruct v as [|b|q|s|items|fields]; cbn [fmap list_fmap fst];
    try (by apply sublist_skip, IH); try (by apply sublist_cons, IH).
  destruct (String.eqb s ""); cbn [fmap list_fmap fst];
    [by apply sublist_cons, IH|by apply sublist_skip, IH].
Qed.

(** X21.  [searchSweets] sends one GET whose query holds, in the order
    of the parameters, only parameters that are neither null nor the
    empty string: every parameter with a non-empty string value is sent
    with that value, nothing is sent for a key that was not given, and
    when every parameter is null or empty the query is empty. *)
Theorem searchSweets_query `{Host} params w :
  ∃ req,
    requests (ApiService.searchSweets params w).1 = requests w ++ [req] ∧
    method req = "GET" ∧ body req = NoBody ∧
    url req
    = ApiService.baseURL +:+ "/api/sweets/search?"
        +:+ URLSearchParams_toString (ApiService.query_of params) ∧
    sublist (ApiService.query_of params).*1 params.*1 ∧
    (∀ k s, (k, s) ∈ ApiService.query_of params →
       ∃ v, (k, v) ∈ params ∧ v ≠ JNull ∧ v ≠ JStr "" ∧ s = ToString v) ∧
    (∀ k v, (k, v) ∈ params → v ≠ JNull → v ≠ JStr "" →
       (k, ToString v) ∈ ApiService.query_of params) ∧
    (Forall (λ kv, kv.2 = JNull ∨ kv.2 = JStr "") params → ApiService.query_of params = []).
Proof.
  destruct (getAuthHeaders_spec w) as (hs & Hhs & _).
  exists (mkRequest (ApiService.baseURL +:+ "/api/sweets/search?"
                       +:+ URLSearchParams_toString (ApiService.query_of params))
            "GET" hs NoBody).
  split; [|split; [done|split; [done|split; [done|split; [apply query_of_keys|]]]]].
  { unfold ApiService.searchSweets, mbind, M_bind, bind. rewrite Hhs.
    pose proof (fetch_handleResponse
                  (mkRequest (ApiService.baseURL +:+ "/api/sweets/search?"
                                +:+ URLSearchParams_toString (ApiService.query_of params))
                     "GET" hs NoBody) w) as Hcall.
    unfold mbind, M_bind, bind in Hcall. rewrite Hcall.
    destruct (network w (length (requests w))) as [r|e]; [|done].
    by rewrite handleResponse_requests. }
  unfold ApiService.query_of. split; [|split].
  - intros k s (kv & Hin & Hsome)%list_elem_of_omap. destruct kv as [k' v].
    cbn [fst snd] in Hsome. exists v.
    destruct v as [|b|q|t|items|fields]; try discriminate Hsome;
      try (injection Hsome as <- <-; done).
    destruct (String.eqb_spec t "") as [|Hne]; [discriminate Hsome|].
    injection Hsome as <- <-. repeat split; [done|done|congruence].
  - intros k v Hin Hnull Hempty. apply list_elem_of_omap. exists (k, v).
    split; [done|]. cbn [fst snd].
    destruct v as [|b|q|t|items|fields]; try done.
    destruct (String.eqb_spec t "") as [->|_]; done.
  - intros Hall. induction Hall as [|[k v] params [Hv|Hv] _ IH];
      [done|cbn [omap list_omap snd] in *; simpl in Hv; subst v..].
    + exact IH.
    + exact IH.
Qed.
